(** * Content resolution for the site builder: [builder/resources.py]

    A shallow embedding of the [Resource] class (and its two kinds [Piece]
    and [Project]), of [make_headline_image], and of the parts of the Python
    standard library the class relies on: [pathlib] paths on a POSIX file
    system, the directory operations [exists], [iterdir] and [glob],
    [functools.cached_property], [logging.debug] and the
    [xml.etree.ElementTree] calls.

    Python [str] values are modelled by [string]: a character is a code
    point below 256. *)

From Stdlib Require Import String Ascii List Bool Arith Lia.
Import ListNotations.
Local Open Scope string_scope.
Local Open Scope list_scope.

Set Warnings "-register-all".

(* ===================================================================== *)
(** ** Exceptions and results *)
(* ===================================================================== *)

(** The exceptions the modelled code can raise.  [XmlOutsideFragment] is not
    a Python exception: it marks an input of [ET.fromstring] that lies
    outside the fragment of XML the parser below accounts for (entity
    references, attributes, comments, ...); nothing is asserted about what
    Python does on such an input. *)
Inductive exn : Type :=
| FileNotFoundError
| NotADirectoryError
| PermissionError
| OSError (errno : string)
| ValueError
| IndexError
| TypeError
| ParseError
| XmlOutsideFragment
| LoadError (msg : string).

Inductive result (A : Type) : Type :=
| Ok (a : A)
| Raise (e : exn).
Arguments Ok {A} a.
Arguments Raise {A} e.

(* ===================================================================== *)
(** ** Strings *)
(* ===================================================================== *)

Module Str.

(** [s.split(sep)] for a one-character separator. *)
Fixpoint split (sep : ascii) (s : string) : list string :=
  match s with
  | EmptyString => [EmptyString]
  | String c s' =>
      if Ascii.eqb c sep then EmptyString :: split sep s'
      else match split sep s' with
           | [] => [String c EmptyString]
           | w :: ws => String c w :: ws
           end
  end.

(** [sep.join(l)]. *)
Fixpoint join (sep : string) (l : list string) : string :=
  match l with
  | [] => EmptyString
  | [x] => x
  | x :: xs => x ++ sep ++ join sep xs
  end.

(** [s.rfind(c)], [None] standing for Python's [-1]. *)
Fixpoint rfind (c : ascii) (s : string) : option nat :=
  match s with
  | EmptyString => None
  | String d s' =>
      match rfind c s' with
      | Some i => Some (S i)
      | None => if Ascii.eqb d c then Some 0 else None
      end
  end.

(** [s[:i]] and [s[i:]]. *)
Definition take (i : nat) (s : string) : string := substring 0 i s.
Definition drop (i : nat) (s : string) : string := substring i (String.length s - i) s.

Definition startswith (c : ascii) (s : string) : bool :=
  match s with
  | String d _ => Ascii.eqb d c
  | EmptyString => false
  end.

Definition is_empty (s : string) : bool :=
  match s with EmptyString => true | _ => false end.

End Str.

(* ===================================================================== *)
(** ** [pathlib]: pure POSIX paths *)
(* ===================================================================== *)

Module Pathlib.

(** A parsed path: the root (the empty string, ["/"] or ["//"]) and the
    components after it.  [Path('')] has no root and no component. *)
Record Path : Type := mkPath { root : string; parts : list string }.

(** [posixpath.splitroot]: no root unless the text starts with a slash;
    exactly two leading slashes are a root of their own. *)
Definition splitroot (s : string) : string * string :=
  match s with
  | String c1 r1 =>
      if negb (Ascii.eqb c1 "/") then ("", s)
      else match r1 with
           | String c2 r2 =>
               if negb (Ascii.eqb c2 "/") || Str.startswith "/" r2
               then ("/", r1) else ("//", r2)
           | EmptyString => ("/", r1)
           end
  | EmptyString => ("", s)
  end.

(** The components of a relative path text: split at ["/"], dropping the
    empty pieces and the ["."] pieces. *)
Definition parse_parts (rel : string) : list string :=
  filter (fun x => negb (Str.is_empty x) && negb (String.eqb x "."))
         (Str.split "/" rel).

(** [Path(s)]. *)
Definition of_string (s : string) : Path :=
  let (rt, rel) := splitroot s in mkPath rt (parse_parts rel).

(** [p / key] for a text [key]: a rooted key replaces [p], any other key
    is parsed and appended. *)
Definition truediv (p : Path) (key : string) : Path :=
  if Str.startswith "/" key then of_string key
  else mkPath (root p) (parts p ++ parse_parts key).

(** [p._make_child_relpath(name)], used by [iterdir] and [glob]: the
    directory entry name is appended as it is. *)
Definition make_child_relpath (p : Path) (entry : string) : Path :=
  mkPath (root p) (parts p ++ [entry]).

(** [p.name]: the last component, or the empty string. *)
Definition name (p : Path) : string := last (parts p) "".

(** The position of the dot that starts the suffix of a file name: the
    last dot, unless it is the first or the last character. *)
Definition suffix_index (nm : string) : option nat :=
  match Str.rfind "." nm with
  | Some i => if ((0 <? i) && (i <? String.length nm - 1))%nat then Some i else None
  | None => None
  end.

(** [p.suffix]. *)
Definition suffix (p : Path) : string :=
  match suffix_index (name p) with
  | Some i => Str.drop i (name p)
  | None => ""
  end.

(** [p.stem]. *)
Definition stem (p : Path) : string :=
  match suffix_index (name p) with
  | Some i => Str.take i (name p)
  | None => name p
  end.

(** [p.parent]. *)
Definition parent (p : Path) : Path := mkPath (root p) (removelast (parts p)).

(** [str(p)]. *)
Definition str (p : Path) : string :=
  match root p, parts p with
  | EmptyString, [] => "."
  | rt, ps => rt ++ Str.join "/" ps
  end.

Fixpoint strip_prefix (pre l : list string) : option (list string) :=
  match pre, l with
  | [], _ => Some l
  | x :: pre', y :: l' => if String.eqb x y then strip_prefix pre' l' else None
  | _ :: _, [] => None
  end.

(** [p.relative_to(other)]. *)
Definition relative_to (p other : Path) : result Path :=
  if String.eqb (root p) (root other) then
    match strip_prefix (parts other) (parts p) with
    | Some rest => Ok (mkPath "" rest)
    | None => Raise ValueError
    end
  else Raise ValueError.

End Pathlib.
Import Pathlib.

(* ===================================================================== *)
(** ** The file system *)
(* ===================================================================== *)

Module FileSystem.

(** What the process may do with a directory: list it (read permission)
    and pass through it to its entries (search permission). *)
Record access : Type := mkAccess { readable : bool; searchable : bool }.

Definition rx : access := mkAccess true true.

(** A directory tree.  A directory keeps its entries in listing order
    (the order [os.listdir] reports them in). *)
Inductive node : Type :=
| File (content : string)
| Dir (mode : access) (entries : list (string * node)).

(** The tree, the working directory of the process (the components of its
    absolute location), and the limits of the system: the longest name of
    an entry ([NAME_MAX], 255 on Linux) and the size of the buffer a path
    has to fit in with its terminator ([PATH_MAX], 4096 on Linux). *)
Record FS : Type := mkFS {
  tree : node;
  cwd : list string;
  name_max : nat;
  path_max : nat
}.

Fixpoint find_entry (nm : string) (es : list (string * node)) : option node :=
  match es with
  | [] => None
  | (k, n) :: es' => if String.eqb k nm then Some n else find_entry nm es'
  end.

(** The node at an absolute location without [".."] components. *)
Fixpoint lookup (n : node) (loc : list string) : option node :=
  match loc with
  | [] => Some n
  | c :: loc' =>
      match n with
      | Dir _ es =>
          match find_entry c es with
          | Some n' => lookup n' loc'
          | None => None
          end
      | File _ => None
      end
  end.

(** Path resolution as the kernel does it, one component at a time.  The
    location reached so far has to exist ([ENOENT]), to be a directory
    ([ENOTDIR]) and to be searchable ([EACCES]); then [".."] steps to the
    parent (the root is its own parent), and any other component steps
    into the entry of that name, unless the name is too long
    ([ENAMETOOLONG]). *)
Fixpoint walk (t : node) (limit : nat) (cur : list string) (comps : list string)
  : result (list string) :=
  match comps with
  | [] => Ok cur
  | c :: rest =>
      match lookup t cur with
      | Some (Dir m _) =>
          if negb (searchable m) then Raise PermissionError
          else if String.eqb c ".." then walk t limit (removelast cur) rest
          else if (limit <? String.length c)%nat then Raise (OSError "ENAMETOOLONG")
          else walk t limit (cur ++ [c]) rest
      | Some (File _) => Raise NotADirectoryError
      | None => Raise FileNotFoundError
      end
  end.

(** [os.stat(p)]: the node [p] names, relative paths starting from the
    working directory.  A path text that does not fit the buffer is refused
    before anything is looked up. *)
Definition stat (fs : FS) (p : Path) : result node :=
  if (path_max fs <=? String.length (str p))%nat then Raise (OSError "ENAMETOOLONG")
  else
    let start := if Str.is_empty (root p) then cwd fs else [] in
    match walk (tree fs) (name_max fs) start (parts p) with
    | Ok loc =>
        match lookup (tree fs) loc with
        | Some n => Ok n
        | None => Raise FileNotFoundError
        end
    | Raise e => Raise e
    end.

(** [pathlib._ignore_error]: the errors of [os.stat] that [exists] and
    [is_dir] take for an answer; every other one they raise again. *)
Definition ignore_error (e : exn) : bool :=
  match e with
  | FileNotFoundError | NotADirectoryError => true
  | _ => false
  end.

(** [p.exists()]. *)
Definition path_exists (fs : FS) (p : Path) : result bool :=
  match stat fs p with
  | Ok _ => Ok true
  | Raise e => if ignore_error e then Ok false else Raise e
  end.

(** [p.is_dir()]. *)
Definition is_dir (fs : FS) (p : Path) : result bool :=
  match stat fs p with
  | Ok (Dir _ _) => Ok true
  | Ok (File _) => Ok false
  | Raise e => if ignore_error e then Ok false else Raise e
  end.

(** [os.listdir(p)]. *)
Definition listdir (fs : FS) (p : Path) : result (list string) :=
  match stat fs p with
  | Ok (Dir m es) =>
      if readable m then Ok (map fst es) else Raise PermissionError
  | Ok (File _) => Raise NotADirectoryError
  | Raise e => Raise e
  end.

(** [p.iterdir()], run to the end. *)
Definition iterdir (fs : FS) (p : Path) : result (list Path) :=
  match listdir fs p with
  | Ok names => Ok (map (make_child_relpath p) names)
  | Raise e => Raise e
  end.

(** [p.glob(pattern)], run to the end, for a pattern that is one component
    without any of the wildcard characters, such as [".md"]: nothing unless
    [p] is a directory; then the selector is the precise one, which yields
    the child of that name when it exists and takes a [PermissionError] of
    that check for no match. *)
Definition glob (fs : FS) (p : Path) (pattern : string) : result (list Path) :=
  match is_dir fs p with
  | Ok true =>
      match path_exists fs (make_child_relpath p pattern) with
      | Ok true => Ok [make_child_relpath p pattern]
      | Ok false => Ok []
      | Raise PermissionError => Ok []
      | Raise e => Raise e
      end
  | Ok false => Ok []
  | Raise e => Raise e
  end.

End FileSystem.
Import FileSystem.

(* ===================================================================== *)
(** ** [xml.etree.ElementTree] *)
(* ===================================================================== *)

Module ET.

(** An element: tag, attributes in insertion order, the text before the
    first child, the children, and the text after the end tag. *)
Inductive Element : Type :=
| Elem (tag : string) (attrib : list (string * string))
       (text : option string) (children : list Element)
       (tail : option string).

Definition tag (e : Element) := let (t, _, _, _, _) := e in t.
Definition attrib (e : Element) := let (_, a, _, _, _) := e in a.
Definition text (e : Element) := let (_, _, x, _, _) := e in x.
Definition children (e : Element) := let (_, _, _, c, _) := e in c.
Definition tail (e : Element) := let (_, _, _, _, x) := e in x.

(** [ET.Element(tag)] and [parent.makeelement(tag, attrib)]. *)
Definition Element_new (t : string) : Element := Elem t [] None [] None.
Definition makeelement (t : string) (a : list (string * string)) : Element :=
  Elem t a None [] None.

(** [d[k] = v] on a dictionary kept in insertion order. *)
Fixpoint dict_set (k v : string) (d : list (string * string))
  : list (string * string) :=
  match d with
  | [] => [(k, v)]
  | (k', v') :: d' =>
      if String.eqb k' k then (k', v) :: d' else (k', v') :: dict_set k v d'
  end.

Fixpoint dict_get (k : string) (d : list (string * string)) : option string :=
  match d with
  | [] => None
  | (k', v) :: d' => if String.eqb k' k then Some v else dict_get k d'
  end.

(** [e.set(k, v)], [e.get(k)], [e.append(c)], [e.insert(i, c)]. *)
Definition set (e : Element) (k v : string) : Element :=
  let (t, a, x, c, tl) := e in Elem t (dict_set k v a) x c tl.
Definition get (e : Element) (k : string) : option string :=
  dict_get k (attrib e).
Definition append (e c : Element) : Element :=
  let (t, a, x, cs, tl) := e in Elem t a x (cs ++ [c]) tl.
Definition insert (e : Element) (i : nat) (c : Element) : Element :=
  let (t, a, x, cs, tl) := e in Elem t a x (firstn i cs ++ c :: skipn i cs) tl.

(** *** [ET.fromstring] on a fragment of XML

    The fragment: start tags [<name>], end tags [</name>] and empty
    elements [<name/>] whose names are ASCII letters, digits, [_], [-]
    and [.] (starting with a letter or [_]), and character data made of
    the characters of [text_char].  On documents of the fragment the
    parser returns the tree [ET.fromstring] builds, and it raises
    [ParseError] where expat reports a document that is not well formed.
    Everything else ([&], [>] or a carriage return in character data,
    attributes, comments, processing instructions, prefixed names, names
    with characters above 127) is reported as [XmlOutsideFragment]. *)

Definition in_range (lo hi : nat) (c : ascii) : bool :=
  let n := nat_of_ascii c in ((lo <=? n) && (n <=? hi))%nat.

Definition is_space (c : ascii) : bool :=
  Ascii.eqb c " " || Ascii.eqb c "009" || Ascii.eqb c "010" || Ascii.eqb c "013".

Definition name_start_char (c : ascii) : bool :=
  in_range 65 90 c || in_range 97 122 c || Ascii.eqb c "_".

Definition name_char (c : ascii) : bool :=
  name_start_char c || in_range 48 57 c || Ascii.eqb c "-" || Ascii.eqb c ".".

(** Character data that reaches the tree unchanged: tab, line feed and the
    characters from the space upwards, other than [<], [&] and [>]. *)
Definition text_char (c : ascii) : bool :=
  (in_range 32 255 c || Ascii.eqb c "009" || Ascii.eqb c "010")
  && negb (Ascii.eqb c "<") && negb (Ascii.eqb c "&") && negb (Ascii.eqb c ">").


(** An element under construction: its tag, its text, and the children
    closed so far, last one first. *)
Record frame : Type := mkFrame {
  f_tag : string;
  f_text : option string;
  f_kids : list Element
}.

Inductive mode : Type :=
| Content (data : string)     (* character data since the last tag *)
| TagOpen                     (* after [<] *)
| StartName (n : string)      (* inside [<name] *)
| EmptyEnd (n : string)       (* after [<name/] *)
| EndName (n : string).       (* inside [</name] *)

Record pstate : Type := mkP {
  p_mode : mode;
  p_stack : list frame;       (* the open elements, innermost first *)
  p_root : option Element     (* the document element, once closed *)
}.

Definition set_tail (e : Element) (s : string) : Element :=
  let (t, a, x, c, _) := e in Elem t a x c (Some s).

(** [TreeBuilder._flush]: character data collected since the last tag goes
    to the text of the open element if it has no child yet, and to the
    tail of its last child otherwise; no data leaves both untouched. *)
Definition flush (data : string) (stack : list frame) : list frame :=
  match data, stack with
  | EmptyString, _ => stack
  | _, [] => []
  | _, f :: fs =>
      match f_kids f with
      | [] => mkFrame (f_tag f) (Some data) [] :: fs
      | k :: ks => mkFrame (f_tag f) (f_text f) (set_tail k data :: ks) :: fs
      end
  end.

(** A closed element joins its parent, or becomes the document element. *)
Definition close (e : Element) (stack : list frame) (rt : option Element)
  : result pstate :=
  match stack with
  | f :: fs =>
      Ok (mkP (Content "") (mkFrame (f_tag f) (f_text f) (e :: f_kids f) :: fs) rt)
  | [] =>
      match rt with
      | None => Ok (mkP (Content "") [] (Some e))
      | Some _ => Raise ParseError
      end
  end.

Definition outside_or_error (c : ascii) : result pstate :=
  if in_range 0 127 c then Raise ParseError else Raise XmlOutsideFragment.

Definition step (st : pstate) (c : ascii) : result pstate :=
  let (m, stack, rt) := st in
  match m with
  | Content data =>
      match stack with
      | [] =>
          if Ascii.eqb c "<" then Ok (mkP TagOpen [] rt)
          else if is_space c then Ok st
          else if Ascii.eqb c "&" then Raise XmlOutsideFragment
          else outside_or_error c
      | _ :: _ =>
          if text_char c then Ok (mkP (Content (data ++ String c "")) stack rt)
          else if Ascii.eqb c "<" then Ok (mkP TagOpen (flush data stack) rt)
          else if in_range 0 31 c && negb (Ascii.eqb c "013") then Raise ParseError
          else Raise XmlOutsideFragment
      end
  | TagOpen =>
      if Ascii.eqb c "/" then Ok (mkP (EndName "") stack rt)
      else if name_start_char c then Ok (mkP (StartName (String c "")) stack rt)
      else if Ascii.eqb c "!" || Ascii.eqb c "?" || Ascii.eqb c ":"
      then Raise XmlOutsideFragment
      else outside_or_error c
  | StartName n =>
      if name_char c then Ok (mkP (StartName (n ++ String c "")) stack rt)
      else if Ascii.eqb c ">" then
        match stack, rt with
        | [], Some _ => Raise ParseError
        | _, _ => Ok (mkP (Content "") (mkFrame n None [] :: stack) rt)
        end
      else if Ascii.eqb c "/" then Ok (mkP (EmptyEnd n) stack rt)
      else if is_space c || Ascii.eqb c ":" then Raise XmlOutsideFragment
      else outside_or_error c
  | EmptyEnd n =>
      if Ascii.eqb c ">" then close (Elem n [] None [] None) stack rt
      else Raise ParseError
  | EndName n =>
      if (if Str.is_empty n then name_start_char c else name_char c)
      then Ok (mkP (EndName (n ++ String c "")) stack rt)
      else if Ascii.eqb c ">" then
        match stack with
        | f :: fs =>
            if String.eqb (f_tag f) n
            then close (Elem n [] (f_text f) (rev (f_kids f)) None) fs rt
            else Raise ParseError
        | [] => Raise ParseError
        end
      else if is_space c || Ascii.eqb c ":" then Raise XmlOutsideFragment
      else outside_or_error c
  end.

Fixpoint run (st : pstate) (s : string) : result pstate :=
  match s with
  | EmptyString => Ok st
  | String c s' =>
      match step st c with
      | Ok st' => run st' s'
      | Raise e => Raise e
      end
  end.

(** [ET.fromstring(text)]. *)
Definition fromstring (s : string) : result Element :=
  match run (mkP (Content "") [] None) s with
  | Ok (mkP (Content _) [] (Some e)) => Ok e
  | Ok _ => Raise ParseError
  | Raise e => Raise e
  end.

End ET.

(* ===================================================================== *)
(** ** The program state and its monad *)
(* ===================================================================== *)

(** Modelled from the spec: the [Document] class of the [document] module,
    which is outside this unit.  A document owns a title, a markup body
    tree and an optional reference to a primary image. *)
Record Document : Type := mkDocument {
  title : string;
  body : ET.Element;
  primary_image : option ET.Element
}.

(** The two concrete kinds of resource and their class constant; the base
    class declares [DIRECTORY] without a value and is used through them. *)
Inductive Kind : Type := Piece | Project.

Definition DIRECTORY (k : Kind) : Path :=
  match k with
  | Piece => of_string "pieces"
  | Project => of_string "projects"
  end.

(** What the field [_description_path] can hold.  The class body binds the
    name [description_path] twice: first to [None], the default written for
    the init-only variable, and later to the cached property.  The
    [dataclass] decorator runs after the class body and takes the default of
    an init-only variable from the class attribute of that name, which by
    then is the property object.  So a construction that passes no
    [description_path] hands that object to [__post_init__], where it is
    not [None] and gets stored. *)
Inductive field_value : Type :=
| PyNone
| PyPath (p : Path)
| PyCachedProperty.

(** The init-only argument [description_path] of a construction. *)
Inductive init_var : Type :=
| Omitted
| Passed (v : option Path).

(** An instance: the class it was made from, the three dataclass fields,
    and the entries [cached_property] writes into the instance dictionary. *)
Record Resource : Type := mkResource {
  cls : Kind;
  path : Path;
  slug : string;
  _description_path : field_value;
  assets_cache : option (list Path);
  description_path_cache : option (option Path);
  description_cache : option Document
}.

(** The path held by [_description_path], if it holds one. *)
Definition explicit_description_path (r : Resource) : option Path :=
  match _description_path r with
  | PyPath p => Some p
  | _ => None
  end.

(** A record handed to the [logging] module. *)
Record LogRecord : Type := mkLogRecord {
  levelname : string;
  msg : string;
  args : list string
}.

(** The state a method runs in: the instance and the log records emitted
    so far, oldest first. *)
Record World : Type := mkWorld { self : Resource; records : list LogRecord }.

Definition M (A : Type) : Type := World -> result A * World.

Definition ret {A} (a : A) : M A := fun w => (Ok a, w).

Definition bind {A B} (m : M A) (k : A -> M B) : M B :=
  fun w =>
    match m w with
    | (Ok a, w') => k a w'
    | (Raise e, w') => (Raise e, w')
    end.

Definition lift {A} (r : result A) : M A := fun w => (r, w).

Definition get_self : M Resource := fun w => (Ok (self w), w).

Declare Scope monad_scope.
Delimit Scope monad_scope with monad.
Notation "x <- c1 ;; c2" := (bind c1 (fun x => c2))
  (at level 61, c1 at next level, right associativity) : monad_scope.
Notation "c1 ;; c2" := (bind c1 (fun _ => c2))
  (at level 61, right associativity) : monad_scope.
Local Open Scope monad_scope.

(** [logging.debug(msg, *args)]. *)
Definition logging_debug (m : string) (a : list string) : M unit :=
  fun w => (Ok tt, mkWorld (self w) (records w ++ [mkLogRecord "DEBUG" m a])).

(** [functools.cached_property]: the value stored in the instance
    dictionary if there is one; otherwise the function runs and, unless it
    raises, its value is stored. *)
Definition cached_property {A} (cache : Resource -> option A)
    (store : A -> Resource -> Resource) (func : M A) : M A :=
  fun w =>
    match cache (self w) with
    | Some v => (Ok v, w)
    | None =>
        match func w with
        | (Ok v, w') => (Ok v, mkWorld (store v (self w')) (records w'))
        | (Raise e, w') => (Raise e, w')
        end
    end.

Definition store_assets (v : list Path) (r : Resource) : Resource :=
  mkResource (cls r) (path r) (slug r) (_description_path r)
             (Some v) (description_path_cache r) (description_cache r).

Definition store_description_path (v : option Path) (r : Resource) : Resource :=
  mkResource (cls r) (path r) (slug r) (_description_path r)
             (assets_cache r) (Some v) (description_cache r).

Definition store_description (v : Document) (r : Resource) : Resource :=
  mkResource (cls r) (path r) (slug r) (_description_path r)
             (assets_cache r) (description_path_cache r) (Some v).

(** [x in (a, b, ...)] on texts. *)
Definition str_in (x : string) (l : list string) : bool :=
  existsb (String.eqb x) l.

(** [seq[i]]. *)
Definition getitem {A} (l : list A) (i : nat) : result A :=
  match nth_error l i with
  | Some x => Ok x
  | None => Raise IndexError
  end.

(** [next(it, default)] on the elements an iterator yields. *)
Definition next {A} (it : list A) (default : A) : A :=
  match it with
  | x :: _ => x
  | [] => default
  end.

(** [make_headline_image(src, alt, wide)]. *)
Definition make_headline_image (src alt : string) (wide : bool) : ET.Element :=
  let img := ET.Element_new "img" in
  let img := ET.set img "src" src in
  let img := ET.set img "alt" alt in
  if wide then ET.set img "class" "wide"
  else ET.set img "class" "tall".

(* ===================================================================== *)
(** ** [class Resource] *)
(* ===================================================================== *)

Section Resources.

(** The collaborators from the [util] and [document] modules, which are
    outside this unit: a pure normalisation of texts, a classification of
    the image file at a path, and the loader of description files. *)
Variable sluggify : string -> string.
Variable is_wide : FS -> Path -> bool.
Variable load_file : FS -> Path -> result Document.

(** [Resource.__post_init__]: an absent or empty [slug] is replaced by the
    normalised stem of the directory; a [description_path] that is not
    [None] is stored in [_description_path]. *)
Definition __post_init__ (r : Resource) (description_path : field_value)
  : Resource :=
  let r :=
    if Str.is_empty (slug r)
    then mkResource (cls r) (path r) (sluggify (stem (path r)))
                    (_description_path r) (assets_cache r)
                    (description_path_cache r) (description_cache r)
    else r in
  match description_path with
  | PyNone => r
  | v => mkResource (cls r) (path r) (slug r) v (assets_cache r)
                    (description_path_cache r) (description_cache r)
  end.

(** The generated [__init__] of the dataclass:
    [cls(path, slug=None, _description_path=None, description_path=...)].
    A [slug] of [None] and the empty text are both falsy and are both
    represented by the empty text in the field. *)
Definition Resource_init (k : Kind) (p : Path) (slug_arg : option string)
    (_description_path_arg : option Path) (description_path_arg : init_var)
  : Resource :=
  let r := mkResource k p
             (match slug_arg with Some s => s | None => "" end)
             (match _description_path_arg with Some q => PyPath q | None => PyNone end)
             None None None in
  __post_init__ r
    (match description_path_arg with
     | Omitted => PyCachedProperty
     | Passed None => PyNone
     | Passed (Some q) => PyPath q
     end).

(** [Resource.from_path]. *)
Definition from_path (k : Kind) (p : Path) : Resource :=
  if str_in (suffix p) [".md"; ".html"]
  then Resource_init k (parent p) None None (Passed (Some p))
  else Resource_init k p None None Omitted.

(** The condition of the comprehension in [assets]:
    [p.suffix not in ('.md', '.html', '')]. *)
Definition is_asset (p : Path) : bool :=
  negb (str_in (suffix p) [".md"; ".html"; ""]).

(** The function behind the property [assets]. *)
Definition assets_func (fs : FS) (r : Resource) : result (list Path) :=
  match iterdir fs (path r) with
  | Ok ps => Ok (filter is_asset ps)
  | Raise e => Raise e
  end.

Definition assets (fs : FS) : M (list Path) :=
  cached_property assets_cache store_assets
                  (r <- get_self ;; lift (assets_func fs r)).

(** The function behind the property [description_path]. *)
Definition description_path_func (fs : FS) (r : Resource) : result (option Path) :=
  let p := truediv (path r) "index.md" in
  match path_exists fs p with
  | Raise e => Raise e
  | Ok true => Ok (Some p)
  | Ok false =>
      let p := truediv (path r) (slug r ++ ".md") in
      match path_exists fs p with
      | Raise e => Raise e
      | Ok true => Ok (Some p)
      | Ok false =>
          match glob fs (path r) ".md" with
          | Raise e => Raise e
          | Ok matches =>
              match next (map Some matches) None with
              | Some p => Ok (Some p)
              | None => Ok None
              end
          end
      end
  end.

Definition description_path (fs : FS) : M (option Path) :=
  cached_property description_path_cache store_description_path
                  (r <- get_self ;; lift (description_path_func fs r)).

(** [Resource._generate_description]. *)
Definition _generate_description (fs : FS) : M Document :=
  r <- get_self ;;
  body <- lift (ET.fromstring
                  ("<html><section><h1>" ++ slug r ++ "</h1></section></html>")) ;;
  a <- assets fs ;;
  match a with
  | [] => ret (mkDocument (slug r) body None)
  | _ :: _ =>
      candidates <- assets fs ;;
      a0 <- assets fs ;;
      first <- lift (getitem a0 0) ;;
      let path_ :=
        next (filter (fun p => String.eqb (sluggify (stem p)) (slug r)) candidates)
             first in
      rel <- lift (relative_to path_ (path r)) ;;
      let headline_img :=
        make_headline_image (str rel) (stem path_) (is_wide fs path_) in
      let div := ET.makeelement "div" [("class", "headline")] in
      let div := ET.append div headline_img in
      let body := ET.insert body 0 div in
      ret (mkDocument (slug r) body (Some headline_img))
  end.

(** The function behind the property [description].  The property
    [description_path] is read twice; the second read returns the stored
    value, so the [None] case of the second match is never reached. *)
Definition description_func (fs : FS) : M Document :=
  r <- get_self ;;
  dp <- description_path fs ;;
  match dp with
  | None =>
      logging_debug "generating default description for %s/%s"
                    [str (DIRECTORY (cls r)); slug r] ;;
      _generate_description fs
  | Some _ =>
      dp' <- description_path fs ;;
      match dp' with
      | Some p => lift (load_file fs p)
      | None => lift (Raise TypeError)
      end
  end.

Definition description (fs : FS) : M Document :=
  cached_property description_cache store_description (description_func fs).

End Resources.

(* ===================================================================== *)
(** ** Vocabulary of the statements *)
(* ===================================================================== *)

Section Vocabulary.

Variable sluggify : string -> string.
Variable is_wide : FS -> Path -> bool.

(** The body [_generate_description] starts from. *)
Definition heading_tree (slug : string) : ET.Element :=
  ET.Elem "html" [] None
    [ET.Elem "section" [] None
       [ET.Elem "h1" [] (if Str.is_empty slug then None else Some slug) [] None]
       None]
    None.

(** The headline element built for an asset. *)
Definition headline_of (fs : FS) (p : Path) : ET.Element :=
  make_headline_image (name p) (stem p) (is_wide fs p).

(** The body after the headline container is put in front. *)
Definition with_headline (body img : ET.Element) : ET.Element :=
  ET.insert body 0 (ET.Elem "div" [("class", "headline")] None [img] None).

Definition template (slug : string) : string :=
  "<html><section><h1>" ++ slug ++ "</h1></section></html>".

(** The asset [_generate_description] picks from a non-empty list. *)
Definition selected (slug : string) (first : Path) (rest : list Path) : Path :=
  next (filter (fun p => String.eqb (sluggify (stem p)) slug) (first :: rest)) first.

(** The record [description] hands to the log when it synthesizes. *)
Definition synthesis_record (r : Resource) : LogRecord :=
  mkLogRecord "DEBUG" "generating default description for %s/%s"
              [str (DIRECTORY (cls r)); slug r].

(** The same instance with another value in [_description_path]. *)
Definition with_explicit (v : field_value) (r : Resource) : Resource :=
  mkResource (cls r) (path r) (slug r) v
             (assets_cache r) (description_path_cache r) (description_cache r).

Definition set_explicit (v : field_value) (w : World) : World :=
  mkWorld (with_explicit v (self w)) (records w).

(** A computation that neither reads nor writes [_description_path]: run
    on an instance holding another value there, it returns the same result
    and leaves the same state, that field apart. *)
Definition ignores_explicit {A} (m : M A) : Prop :=
  forall v w, m (set_explicit v w) = (fst (m w), set_explicit v (snd (m w))).

(** A document whose body is the heading alone, without primary image. *)
Definition only_heading (slug : string) (d : Document) : Prop :=
  body d = ET.Elem "html" [] None
             [ET.Elem "section" [] None [ET.Elem "h1" [] (Some slug) [] None] None]
             None
  /\ primary_image d = None.

End Vocabulary.

(* ===================================================================== *)
(** ** A small site for the examples *)
(* ===================================================================== *)

Module Demo.

(** A content tree with one directory per situation: two images of which
    one carries the slug ([heron]), an [index.md] next to an [.html] file
    ([owl]), a [{slug}.md] ([lark]), images that do not carry the slug
    ([wren]), a file named [.md] ([odd]), nothing at all ([empty]), a
    directory that may be searched but not listed ([vault]) and one that
    may be neither ([closed]). *)
Definition site : FS :=
  mkFS (Dir rx
          [("content",
            Dir rx
              [("pieces",
                Dir rx
                  [("heron", Dir rx [("cover.jpg", File "jpg");
                                     ("heron.png", File "png");
                                     ("notes", File "txt")]);
                   ("owl", Dir rx [("index.md", File "# Owl");
                                   ("owl.html", File "<p>owl</p>");
                                   ("owl.jpg", File "jpg")]);
                   ("lark", Dir rx [("lark.md", File "# Lark");
                                    ("lark.jpg", File "jpg")]);
                   ("empty", Dir rx []);
                   ("wren", Dir rx [("a.jpg", File "jpg");
                                    ("b.png", File "png")]);
                   ("odd", Dir rx [(".md", File "hidden");
                                   ("x.jpg", File "jpg")]);
                   ("vault", Dir (mkAccess false true)
                               [("index.md", File "# Vault")]);
                   ("closed", Dir (mkAccess false false)
                                [("index.md", File "# Closed")])])])])
       [] 255 4096.

(** A file system without anything in it. *)
Definition bare : FS := mkFS (Dir rx []) [] 255 4096.

(** A slug of 253 letters: with [.md] behind it the name has 256. *)
Fixpoint letters (n : nat) : string :=
  match n with
  | O => EmptyString
  | S n' => String "a" (letters n')
  end.

Definition long_slug : string := letters 253.

Definition pieces (d : string) : Path := mkPath "" ["content"; "pieces"; d].

(** Stand-ins for the collaborators: lower-case letters and hyphens for
    spaces; [.jpg] files are wide; a description file loads as a document
    titled by its content. *)
Definition lower (c : ascii) : ascii :=
  if ET.in_range 65 90 c then ascii_of_nat (nat_of_ascii c + 32)
  else if Ascii.eqb c " " then "-"%char else c.

Fixpoint sluggify (s : string) : string :=
  match s with
  | EmptyString => EmptyString
  | String c s' => String (lower c) (sluggify s')
  end.

Definition is_wide (fs : FS) (p : Path) : bool := String.eqb (suffix p) ".jpg".

Definition load_file (fs : FS) (p : Path) : result Document :=
  match stat fs p with
  | Ok (File c) => Ok (mkDocument c (ET.Element_new "html") None)
  | _ => Raise (LoadError (str p))
  end.

(** A new instance in a process that has logged nothing yet. *)
Definition start (r : Resource) : World := mkWorld r [].

Definition Piece_ (p : Path) (slug_arg : option string) : Resource :=
  Resource_init sluggify Piece p slug_arg None Omitted.

End Demo.

(* ===================================================================== *)
(** ** Vocabulary of the further statements *)
(* ===================================================================== *)

(** The same instance made from another class. *)
Definition with_cls (k : Kind) (r : Resource) : Resource :=
  mkResource k (path r) (slug r) (_description_path r)
             (assets_cache r) (description_path_cache r) (description_cache r).

(** Two states whose instances differ in their class at most; the logs are
    left free. *)
Definition same_but_cls (k : Kind) (w1 w2 : World) : Prop :=
  self w1 = with_cls k (self w2).

(** Two computations that, started in such states, return the same and end
    in such states. *)
Definition kind_blind {A} (k : Kind) (m1 m2 : M A) : Prop :=
  forall w1 w2,
    same_but_cls k w1 w2 ->
    fst (m1 w1) = fst (m2 w2) /\ same_but_cls k (snd (m1 w1)) (snd (m2 w2)).

(** An entry of the instance dictionary that, once written, stays. *)
Definition keeps {A} (c c' : option A) : Prop :=
  forall v, c = Some v -> c' = Some v.

(** A later state of the same instance: the fields are the same, what was
    cached is still cached, and the log has only grown. *)
Definition later (w w' : World) : Prop :=
  cls (self w) = cls (self w')
  /\ path (self w) = path (self w')
  /\ slug (self w) = slug (self w')
  /\ _description_path (self w) = _description_path (self w')
  /\ keeps (assets_cache (self w)) (assets_cache (self w'))
  /\ keeps (description_path_cache (self w)) (description_path_cache (self w'))
  /\ keeps (description_cache (self w)) (description_cache (self w'))
  /\ exists more, records w' = records w ++ more.

(** A computation whose final state is always related to its initial one. *)
Definition preserves (R : World -> World -> Prop) {A} (m : M A) : Prop :=
  forall w, R w (snd (m w)).

(** States whose instances have the same [description] entry. *)
Definition same_description_cache (w w' : World) : Prop :=
  description_cache (self w) = description_cache (self w').

(** A text without a slash. *)
Definition no_slash (s : string) : bool :=
  forallb (fun c => negb (Ascii.eqb c "/")) (list_ascii_of_string s).


(* ===================================================================== *)
(** * Facts *)
(* ===================================================================== *)

(** ** Worked examples *)

Example of_string_examples :
  of_string "content/pieces/Blue Heron/index.md"
    = mkPath "" ["content"; "pieces"; "Blue Heron"; "index.md"]
  /\ of_string "/srv//site/./a" = mkPath "/" ["srv"; "site"; "a"]
  /\ of_string "//x" = mkPath "//" ["x"]
  /\ of_string "///x" = mkPath "/" ["x"]
  /\ of_string "" = mkPath "" [].
Proof. repeat split. Qed.

Example suffix_stem_examples :
  map (fun n => (suffix (mkPath "" ["d"; n]), stem (mkPath "" ["d"; n])))
      ["a.md"; ".md"; "a."; "a"; "a.b.md"; ".."; "...md"; "..md"; "page.html"]
  = [(".md", "a"); ("", ".md"); ("", "a."); ("", "a"); (".md", "a.b");
     ("", ".."); (".md", ".."); (".md", "."); (".html", "page")].
Proof. reflexivity. Qed.

Example truediv_examples :
  truediv (of_string "d") "a/b.md" = of_string "d/a/b.md"
  /\ truediv (of_string "d") "/x" = of_string "/x"
  /\ truediv (of_string "d") "" = of_string "d"
  /\ parent (of_string "index.md") = of_string ""
  /\ str (of_string "") = "."
  /\ str (of_string "//a/b") = "//a/b"
  /\ relative_to (of_string "d/a.jpg") (of_string "d") = Ok (of_string "a.jpg").
Proof. repeat split. Qed.

Example stat_examples :
  path_exists Demo.site (of_string "content/pieces/owl/index.md") = Ok true
  /\ path_exists Demo.site (of_string "content/pieces/owl/../lark/lark.md") = Ok true
  /\ path_exists Demo.site (of_string "content/pieces/owl/index.md/..") = Ok false
  /\ path_exists Demo.site (of_string "content/pieces/heron/index.md") = Ok false
  /\ iterdir Demo.site (Demo.pieces "wren")
     = Ok [of_string "content/pieces/wren/a.jpg"; of_string "content/pieces/wren/b.png"]
  /\ iterdir Demo.site (of_string "content/nowhere") = Raise FileNotFoundError
  /\ iterdir Demo.site (of_string "content/pieces/owl/index.md") = Raise NotADirectoryError
  /\ iterdir Demo.site (of_string "content/pieces/owl/index.md/x")
     = Raise NotADirectoryError
  /\ glob Demo.site (Demo.pieces "odd") ".md" = Ok [of_string "content/pieces/odd/.md"]
  /\ glob Demo.site (Demo.pieces "owl") ".md" = Ok [].
Proof. repeat split. Qed.

(** Errors of [os.stat] that [exists] does not take for an answer: a name
    of more than 255 characters in a directory that is there, and an entry
    of a directory that may not be searched.  A name that long below
    something that is not there or not a directory is just not there. *)
Example stat_error_examples :
  let long := (Demo.long_slug ++ ".md")%string in
  String.length long = 256
  /\ path_exists Demo.site (make_child_relpath (Demo.pieces "empty") long)
     = Raise (OSError "ENAMETOOLONG")
  /\ path_exists Demo.site (make_child_relpath (Demo.pieces "nowhere") long) = Ok false
  /\ path_exists Demo.site
       (make_child_relpath (of_string "content/pieces/owl/index.md") long)
     = Ok false
  /\ path_exists Demo.site (of_string "content/pieces/closed") = Ok true
  /\ path_exists Demo.site (of_string "content/pieces/closed/index.md")
     = Raise PermissionError
  /\ path_exists Demo.site (make_child_relpath (Demo.pieces "closed") long)
     = Raise PermissionError
  /\ path_exists Demo.site (of_string "content/pieces/closed/../owl")
     = Raise PermissionError
  /\ listdir Demo.site (Demo.pieces "closed") = Raise PermissionError
  /\ glob Demo.site (Demo.pieces "closed") ".md" = Ok []
  /\ glob Demo.site (of_string "content/pieces/closed/sub") ".md"
     = Raise PermissionError
  /\ path_exists Demo.site (of_string "content/pieces/vault/index.md") = Ok true
  /\ listdir Demo.site (Demo.pieces "vault") = Raise PermissionError.
Proof.
  intros long. repeat (split; [vm_compute; reflexivity|]).
  vm_compute. reflexivity.
Qed.

Example fromstring_examples :
  ET.fromstring "<html><section><h1>heron</h1></section></html>"
  = Ok (ET.Elem "html" [] None
          [ET.Elem "section" [] None [ET.Elem "h1" [] (Some "heron") [] None] None]
          None)
  /\ ET.fromstring "<h1></h1>" = Ok (ET.Elem "h1" [] None [] None)
  /\ ET.fromstring "<h1>a<i>x</i>y<b/>z</h1>"
     = Ok (ET.Elem "h1" [] (Some "a")
             [ET.Elem "i" [] (Some "x") [] (Some "y"); ET.Elem "b" [] None [] (Some "z")]
             None)
  /\ ET.fromstring "<h1><</h1>" = Raise ParseError
  /\ ET.fromstring "<h1>a<1</h1>" = Raise ParseError
  /\ ET.fromstring "<a></b>" = Raise ParseError
  /\ ET.fromstring "<a></a></a>" = Raise ParseError
  /\ ET.fromstring "<a></a><b></b>" = Raise ParseError
  /\ ET.fromstring "<a>" = Raise ParseError
  /\ ET.fromstring "" = Raise ParseError
  /\ ET.fromstring "<h1>a&amp;b</h1>" = Raise XmlOutsideFragment.
Proof. repeat split. Qed.

Example make_headline_image_examples :
  make_headline_image "a.jpg" "A" true
  = ET.Elem "img" [("src", "a.jpg"); ("alt", "A"); ("class", "wide")] None [] None
  /\ ET.get (make_headline_image "a.jpg" "A" false) "class" = Some "tall".
Proof. split; reflexivity. Qed.

(** The description of a directory that holds only images is synthesized:
    one log record, the image named after the slug as headline. *)
Example description_heron :
  description Demo.sluggify Demo.is_wide Demo.load_file Demo.site
              (Demo.start (Demo.Piece_ (Demo.pieces "heron") None))
  = (Ok (mkDocument "heron"
           (ET.Elem "html" [] None
              [ET.Elem "div" [("class", "headline")] None
                 [ET.Elem "img" [("src", "heron.png"); ("alt", "heron"); ("class", "tall")]
                          None [] None] None;
               ET.Elem "section" [] None [ET.Elem "h1" [] (Some "heron") [] None] None]
              None)
           (Some (ET.Elem "img" [("src", "heron.png"); ("alt", "heron"); ("class", "tall")]
                          None [] None))),
     snd (description Demo.sluggify Demo.is_wide Demo.load_file Demo.site
                      (Demo.start (Demo.Piece_ (Demo.pieces "heron") None))))
  /\ records (snd (description Demo.sluggify Demo.is_wide Demo.load_file Demo.site
                      (Demo.start (Demo.Piece_ (Demo.pieces "heron") None))))
     = [mkLogRecord "DEBUG" "generating default description for %s/%s" ["pieces"; "heron"]].
Proof. split; reflexivity. Qed.

(* ===================================================================== *)
(** ** Paths *)
(* ===================================================================== *)

Lemma str_in_spec (x : string) (l : list string) :
  str_in x l = true <-> In x l.
Proof.
  unfold str_in. rewrite existsb_exists. split.
  - intros [y [Hy E]]. apply String.eqb_eq in E. now subst.
  - intros H. exists x. split; [assumption | apply String.eqb_refl].
Qed.

Lemma str_in_false (x : string) (l : list string) :
  str_in x l = false <-> ~ In x l.
Proof.
  rewrite <- str_in_spec. destruct (str_in x l); split; congruence.
Qed.

Lemma name_make_child (p : Path) (n : string) :
  name (make_child_relpath p n) = n.
Proof. unfold name, make_child_relpath. simpl. apply last_last. Qed.

Lemma strip_prefix_app (l r : list string) : strip_prefix l (l ++ r) = Some r.
Proof.
  induction l as [|x l IH]; simpl.
  - now destruct r.
  - now rewrite String.eqb_refl.
Qed.

(** A directory entry, taken relative to its directory, is its name. *)
Lemma relative_to_child (p : Path) (n : string) :
  relative_to (make_child_relpath p n) p = Ok (mkPath "" [n]).
Proof.
  unfold relative_to, make_child_relpath. simpl.
  now rewrite String.eqb_refl, strip_prefix_app.
Qed.


Lemma truediv_index (p : Path) :
  truediv p "index.md" = make_child_relpath p "index.md".
Proof. reflexivity. Qed.

(* ===================================================================== *)
(** ** Construction *)
(* ===================================================================== *)

Section ConstructionFacts.

Variable sluggify : string -> string.

Lemma Resource_init_path k p s d e :
  path (Resource_init sluggify k p s d e) = p.
Proof.
  unfold Resource_init, __post_init__.
  destruct s as [[|c s]|], e as [|[q|]]; reflexivity.
Qed.

Lemma Resource_init_cls k p s d e :
  cls (Resource_init sluggify k p s d e) = k.
Proof.
  unfold Resource_init, __post_init__.
  destruct s as [[|c s]|], e as [|[q|]]; reflexivity.
Qed.

Lemma Resource_init_fresh k p s d e :
  let r := Resource_init sluggify k p s d e in
  assets_cache r = None /\ description_path_cache r = None
  /\ description_cache r = None.
Proof.
  unfold Resource_init, __post_init__.
  destruct s as [[|c s]|], e as [|[q|]]; repeat split.
Qed.

(** C8, as the code has it.  The slug of a new resource is the normalised
    stem of its directory when no slug is passed, and also when the empty
    text is passed; a non-empty slug that is passed is kept as it is. *)
Theorem slug_default_or_supplied k p d e :
  slug (Resource_init sluggify k p None d e) = sluggify (stem p)
  /\ slug (Resource_init sluggify k p (Some "") d e) = sluggify (stem p)
  /\ forall s, s <> "" -> slug (Resource_init sluggify k p (Some s) d e) = s.
Proof.
  unfold Resource_init, __post_init__. repeat split.
  - destruct e as [|[q|]]; reflexivity.
  - destruct e as [|[q|]]; reflexivity.
  - intros [|c s] Hs; [congruence|]. destruct e as [|[q|]]; reflexivity.
Qed.

(** C9.  Given a path whose suffix is [.md] or [.html], [from_path] makes
    the resource of the parent directory and stores the path itself as the
    explicit description path; given any other path it makes the resource of
    that path, passing no description path, and the resource holds none. *)
Theorem from_path_directory_and_explicit_path k p :
  (suffix p = ".md" \/ suffix p = ".html" ->
   from_path sluggify k p = Resource_init sluggify k (parent p) None None (Passed (Some p))
   /\ path (from_path sluggify k p) = parent p
   /\ _description_path (from_path sluggify k p) = PyPath p
   /\ explicit_description_path (from_path sluggify k p) = Some p)
  /\ (suffix p <> ".md" -> suffix p <> ".html" ->
      from_path sluggify k p = Resource_init sluggify k p None None Omitted
      /\ path (from_path sluggify k p) = p
      /\ explicit_description_path (from_path sluggify k p) = None).
Proof.
  unfold from_path. split.
  - intros H.
    assert (E : str_in (suffix p) [".md"; ".html"] = true).
    { apply str_in_spec. simpl. destruct H as [H|H]; rewrite H; auto. }
    rewrite E. repeat split.
  - intros H1 H2.
    assert (E : str_in (suffix p) [".md"; ".html"] = false).
    { apply str_in_false. simpl. intros [H|[H|[]]]; congruence. }
    rewrite E. repeat split.
Qed.

(** C10.  A resource made by [from_path] from a description file takes its
    slug from the name of the directory the file is in. *)
Theorem from_path_slug_of_parent k p :
  suffix p = ".md" \/ suffix p = ".html" ->
  slug (from_path sluggify k p) = sluggify (stem (parent p)).
Proof.
  intros H. unfold from_path.
  assert (E : str_in (suffix p) [".md"; ".html"] = true).
  { apply str_in_spec. simpl. destruct H as [H|H]; rewrite H; auto. }
  rewrite E. reflexivity.
Qed.

End ConstructionFacts.

(* ===================================================================== *)
(** ** Cached properties *)
(* ===================================================================== *)

Section PropertyFacts.

Variable sluggify : string -> string.
Variable is_wide : FS -> Path -> bool.
Variable load_file : FS -> Path -> result Document.

Lemma assets_miss fs w :
  assets_cache (self w) = None ->
  assets fs w =
  match assets_func fs (self w) with
  | Ok l => (Ok l, mkWorld (store_assets l (self w)) (records w))
  | Raise e => (Raise e, w)
  end.
Proof.
  intros H. unfold assets, cached_property, bind, get_self, lift. rewrite H.
  destruct (assets_func fs (self w)); reflexivity.
Qed.

Lemma assets_hit fs w l :
  assets_cache (self w) = Some l -> assets fs w = (Ok l, w).
Proof. intros H. unfold assets, cached_property. now rewrite H. Qed.

Lemma description_path_miss fs w :
  description_path_cache (self w) = None ->
  description_path fs w =
  match description_path_func fs (self w) with
  | Ok v => (Ok v, mkWorld (store_description_path v (self w)) (records w))
  | Raise e => (Raise e, w)
  end.
Proof.
  intros H. unfold description_path, cached_property, bind, get_self, lift.
  rewrite H. destruct (description_path_func fs (self w)); reflexivity.
Qed.

Lemma description_path_hit fs w v :
  description_path_cache (self w) = Some v ->
  description_path fs w = (Ok v, w).
Proof. intros H. unfold description_path, cached_property. now rewrite H. Qed.

(** A read of [description_path] that returns has stored what it returns
    and has touched nothing else. *)
Lemma description_path_returns fs w v w' :
  description_path fs w = (Ok v, w') ->
  records w' = records w
  /\ description_path_cache (self w') = Some v
  /\ cls (self w') = cls (self w) /\ slug (self w') = slug (self w)
  /\ path (self w') = path (self w)
  /\ assets_cache (self w') = assets_cache (self w).
Proof.
  destruct (description_path_cache (self w)) as [v0|] eqn:E.
  - rewrite (description_path_hit _ _ _ E). intros [= <- <-].
    repeat split; assumption.
  - rewrite (description_path_miss _ _ E).
    destruct (description_path_func fs (self w)); intros [= <- <-].
    repeat split.
Qed.

(** A read of [description_path] that raises is a search that raised, and
    it leaves the state as it was. *)
Lemma description_path_raises fs w e w' :
  description_path fs w = (Raise e, w') ->
  w' = w
  /\ description_path_cache (self w) = None
  /\ description_path_func fs (self w) = Raise e.
Proof.
  destruct (description_path_cache (self w)) as [v0|] eqn:E.
  - rewrite (description_path_hit _ _ _ E). discriminate.
  - rewrite (description_path_miss _ _ E).
    destruct (description_path_func fs (self w)); intros [= <- <-].
    now repeat split.
Qed.

(** What the literal pattern [.md] can match: the entry of that very name. *)
Lemma glob_literal fs p pat l q :
  glob fs p pat = Ok l -> In q l ->
  q = make_child_relpath p pat /\ path_exists fs q = Ok true.
Proof.
  unfold glob. destruct (is_dir fs p) as [[|]|e]; try discriminate.
  - destruct (path_exists fs (make_child_relpath p pat)) as [[|]|e] eqn:E.
    + intros [= <-] [H|[]]. subst q. now split.
    + intros [= <-] [].
    + destruct e; try discriminate. intros [= <-] [].
  - intros [= <-] [].
Qed.


Lemma is_asset_spec p :
  is_asset p = true <-> suffix p <> ".md" /\ suffix p <> ".html" /\ suffix p <> "".
Proof.
  unfold is_asset. rewrite negb_true_iff, str_in_false. simpl. intuition.
Qed.

Lemma assets_func_listing fs r names :
  listdir fs (path r) = Ok names ->
  assets_func fs r = Ok (filter is_asset (map (make_child_relpath (path r)) names)).
Proof. intros H. unfold assets_func, iterdir. now rewrite H. Qed.

Lemma assets_func_inv fs r l :
  assets_func fs r = Ok l ->
  exists names, listdir fs (path r) = Ok names
                /\ l = filter is_asset (map (make_child_relpath (path r)) names).
Proof.
  unfold assets_func, iterdir. destruct (listdir fs (path r)) as [names|e];
    [|discriminate].
  intros [= <-]. now exists names.
Qed.

(** C7.  When the directory can be listed, the first read of [assets] yields
    its entries, as children of [path] and in listing order, without those
    whose suffix is [.md], [.html] or empty; the list is stored, and every
    later read returns it without looking at the file system again, whatever
    the directory has become. *)
Theorem assets_children_filtered_and_cached fs w names :
  assets_cache (self w) = None ->
  listdir fs (path (self w)) = Ok names ->
  let children := map (make_child_relpath (path (self w))) names in
  exists l w',
    assets fs w = (Ok l, w')
    /\ l = filter is_asset children
    /\ (forall p, In p l <->
                  In p children
                  /\ suffix p <> ".md" /\ suffix p <> ".html" /\ suffix p <> "")
    /\ records w' = records w
    /\ forall fs', assets fs' w' = (Ok l, w').
Proof.
  intros Hc Hl children.
  exists (filter is_asset children),
         (mkWorld (store_assets (filter is_asset children) (self w)) (records w)).
  rewrite (assets_miss _ _ Hc), (assets_func_listing _ _ _ Hl). fold children.
  split; [reflexivity|]. split; [reflexivity|]. split; [|split].
  - intros p. rewrite filter_In, is_asset_spec. reflexivity.
  - reflexivity.
  - intros fs'. now apply assets_hit.
Qed.

End PropertyFacts.

(* ===================================================================== *)
(** ** Parsing the heading *)
(* ===================================================================== *)

Lemma append_assoc (a b c : string) : ((a ++ b) ++ c = a ++ (b ++ c))%string.
Proof. induction a as [|x a IH]; simpl; [reflexivity | now rewrite IH]. Qed.





(* ===================================================================== *)
(** ** Synthesis *)
(* ===================================================================== *)

Lemma next_filter_cases {A} (f : A -> bool) (l : list A) (d : A) :
  (exists pre sel post,
      l = pre ++ sel :: post /\ f sel = true
      /\ (forall q, In q pre -> f q = false)
      /\ next (filter f l) d = sel)
  \/ ((forall q, In q l -> f q = false) /\ next (filter f l) d = d).
Proof.
  induction l as [|x l IH]; simpl.
  - right. split; [intros q []|reflexivity].
  - destruct (f x) eqn:E.
    + left. exists [], x, l.
      split; [reflexivity|]. split; [assumption|].
      split; [intros q []|reflexivity].
    + destruct IH as [(pre & sel & post & -> & Hs & Hpre & Hn)|[Hall Hn]].
      * left. exists (x :: pre), sel, post.
        split; [reflexivity|]. split; [assumption|]. split; [|assumption].
        intros q [<-|Hq]; [assumption | now apply Hpre].
      * right. split; [|assumption]. intros q [<-|Hq]; [assumption | now apply Hall].
Qed.

Lemma next_filter_In {A} (f : A -> bool) (l : list A) (d : A) :
  In d l -> In (next (filter f l) d) l.
Proof.
  intros Hd.
  destruct (next_filter_cases f l d) as [(pre & sel & post & -> & _ & _ & ->)|[_ ->]].
  - apply in_or_app. right. now left.
  - assumption.
Qed.

Section SynthesisFacts.

Variable sluggify : string -> string.
Variable is_wide : FS -> Path -> bool.
Variable load_file : FS -> Path -> result Document.

Lemma generate_without_assets fs w :
  assets_cache (self w) = None ->
  assets_func fs (self w) = Ok [] ->
  _generate_description sluggify is_wide fs w =
  match ET.fromstring (template (slug (self w))) with
  | Ok body => (Ok (mkDocument (slug (self w)) body None),
                mkWorld (store_assets [] (self w)) (records w))
  | Raise e => (Raise e, w)
  end.
Proof.
  intros Hc Hf. unfold _generate_description, template.
  cbv [bind get_self lift ret].
  destruct (ET.fromstring _) as [body|e]; [|reflexivity].
  now rewrite (assets_miss _ _ Hc), Hf.
Qed.

Lemma generate_with_assets fs w first rest :
  assets_cache (self w) = None ->
  assets_func fs (self w) = Ok (first :: rest) ->
  let sel := selected sluggify (slug (self w)) first rest in
  relative_to sel (path (self w)) = Ok (mkPath "" [name sel])
  /\ _generate_description sluggify is_wide fs w =
     match ET.fromstring (template (slug (self w))) with
     | Ok body =>
         (Ok (mkDocument (slug (self w)) (with_headline body (headline_of is_wide fs sel))
                         (Some (headline_of is_wide fs sel))),
          mkWorld (store_assets (first :: rest) (self w)) (records w))
     | Raise e => (Raise e, w)
     end.
Proof.
  intros Hc Hf sel.
  assert (Hrel : relative_to sel (path (self w)) = Ok (mkPath "" [name sel])).
  { destruct (assets_func_inv _ _ _ Hf) as (names & _ & Hl).
    assert (Hin : In sel (first :: rest))
      by (apply next_filter_In; now left).
    rewrite Hl in Hin. apply filter_In in Hin. destruct Hin as [Hin _].
    apply in_map_iff in Hin. destruct Hin as (n & <- & _).
    now rewrite relative_to_child, name_make_child. }
  split; [assumption|].
  unfold _generate_description, template.
  cbv [bind get_self lift ret].
  destruct (ET.fromstring _) as [body|e]; [|reflexivity].
  rewrite (assets_miss _ _ Hc), Hf.
  set (w' := mkWorld (store_assets (first :: rest) (self w)) (records w)).
  assert (Hhit : assets fs w' = (Ok (first :: rest), w'))
    by (now apply assets_hit).
  cbv beta iota. rewrite Hhit. cbv beta iota. rewrite Hhit.
  cbv [getitem nth_error]. cbv beta iota.
  change (next _ first) with sel.
  change (path (self w')) with (path (self w)). rewrite Hrel.
  reflexivity.
Qed.

Lemma assets_cases fs w :
  (exists l w', assets fs w = (Ok l, w')
                /\ records w' = records w
                /\ assets_cache (self w') = Some l)
  \/ (exists e, assets fs w = (Raise e, w)).
Proof.
  destruct (assets_cache (self w)) as [l|] eqn:E.
  - left. exists l, w. now rewrite (assets_hit _ _ _ E).
  - rewrite (assets_miss _ _ E). destruct (assets_func fs (self w)) as [l|e].
    + left. eexists _, _. repeat split.
    + right. now exists e.
Qed.

(** Synthesis itself writes nothing to the log. *)
Lemma generate_records fs w :
  records (snd (_generate_description sluggify is_wide fs w)) = records w.
Proof.
  unfold _generate_description. cbv [bind get_self lift ret].
  destruct (ET.fromstring _) as [body|e]; [|reflexivity].
  destruct (assets_cases fs w) as [(l & w' & Ha & Hr & Hc)|[e Ha]];
    rewrite Ha; cbv beta iota; [|reflexivity].
  destruct l as [|x l]; [assumption|].
  rewrite (assets_hit _ _ _ Hc). cbv beta iota. rewrite (assets_hit _ _ _ Hc).
  cbv [getitem nth_error]. cbv beta iota.
  destruct (relative_to _ _); assumption.
Qed.

Lemma description_func_eq fs w dp w1 :
  description_path fs w = (Ok dp, w1) ->
  description_func sluggify is_wide load_file fs w =
  match dp with
  | Some p => (load_file fs p, w1)
  | None =>
      _generate_description sluggify is_wide fs
        (mkWorld (self w1) (records w1 ++ [synthesis_record (self w)]))
  end.
Proof.
  intros Hdp.
  destruct (description_path_returns fs w dp w1 Hdp) as (_ & Hc & _).
  unfold description_func. cbv [bind get_self]. rewrite Hdp. cbv beta iota.
  destruct dp as [p|].
  - rewrite (description_path_hit _ _ _ Hc). reflexivity.
  - reflexivity.
Qed.

Lemma describe_miss fs w :
  description_cache (self w) = None ->
  fst (description sluggify is_wide load_file fs w)
  = fst (description_func sluggify is_wide load_file fs w)
  /\ records (snd (description sluggify is_wide load_file fs w))
     = records (snd (description_func sluggify is_wide load_file fs w)).
Proof.
  intros H. unfold description, cached_property. rewrite H.
  destruct (description_func _ _ _ fs w) as [[d|e] w']; split; reflexivity.
Qed.

(** C3.  On its first read, [description] returns what [load_file] returns
    for [description_path] when that is present, logging nothing; when it is
    absent it returns what [_generate_description] returns, after one debug
    record naming the class directory and the slug has been logged. *)
Theorem description_loaded_or_synthesized fs w dp w1 :
  description_cache (self w) = None ->
  description_path fs w = (Ok dp, w1) ->
  let result := description sluggify is_wide load_file fs w in
  let entry := synthesis_record (self w) in
  match dp with
  | Some p =>
      fst result = load_file fs p
      /\ records (snd result) = records w
  | None =>
      fst result
      = fst (_generate_description sluggify is_wide fs
               (mkWorld (self w1) (records w ++ [entry])))
      /\ records (snd result) = records w ++ [entry]
  end.
Proof.
  intros Hc Hdp result entry. unfold result, entry.
  destruct (describe_miss fs w Hc) as [-> ->].
  rewrite (description_func_eq fs w dp w1 Hdp).
  destruct (description_path_returns fs w dp w1 Hdp) as (Hr & _).
  destruct dp as [p|]; simpl.
  - now split.
  - rewrite generate_records, Hr. now split.
Qed.



End SynthesisFacts.

(* ===================================================================== *)
(** ** The names the search can return *)
(* ===================================================================== *)

Lemma split_md (s : string) :
  exists l t, Str.split "/" (s ++ ".md") = l ++ [(t ++ ".md")%string].
Proof.
  induction s as [|c s (l & t & IH)].
  - now exists [], "".
  - simpl. rewrite IH. destruct (Ascii.eqb c "/").
    + now exists ("" :: l), t.
    + destruct l as [|x l]; simpl.
      * now exists [], (String c t).
      * now exists (String c x :: l), t.
Qed.

Lemma parse_parts_md (s : string) :
  exists l t, parse_parts (s ++ ".md") = l ++ [(t ++ ".md")%string].
Proof.
  destruct (split_md s) as (l & t & E). unfold parse_parts. rewrite E.
  rewrite filter_app. eexists _, t. f_equal. simpl.
  destruct t as [|c [|d t]]; simpl; try reflexivity.
  - now destruct (Ascii.eqb c ".").
  - now destruct (Ascii.eqb c ".").
Qed.

Lemma splitroot_md (s : string) :
  exists s', snd (splitroot (s ++ ".md")) = (s' ++ ".md")%string.
Proof.
  destruct s as [|c1 [|c2 s]]; simpl.
  - now exists "".
  - destruct (Ascii.eqb c1 "/"); simpl; [now exists "" | now exists (String c1 "")].
  - destruct (Ascii.eqb c1 "/"); simpl; [|now exists (String c1 (String c2 s))].
    destruct (negb (Ascii.eqb c2 "/") || Str.startswith "/" (s ++ ".md")); simpl;
      [now exists (String c2 s) | now exists s].
Qed.

Lemma last_app_snoc {A} (l l' : list A) (x d : A) : last (l ++ l' ++ [x]) d = x.
Proof. rewrite app_assoc. apply last_last. Qed.

(** The name of [p / (s + ".md")] ends in [.md]. *)
Lemma name_truediv_md (p : Path) (s : string) :
  exists t, name (truediv p (s ++ ".md")) = (t ++ ".md")%string.
Proof.
  unfold truediv, name. destruct (Str.startswith "/" (s ++ ".md")).
  - unfold of_string. destruct (splitroot_md s) as (s' & E).
    destruct (splitroot (s ++ ".md")) as [rt rel]. simpl in E. subst rel.
    destruct (parse_parts_md s') as (l & t & ->). exists t. simpl.
    apply last_last.
  - destruct (parse_parts_md s) as (l & t & ->). exists t. simpl.
    apply last_app_snoc.
Qed.

Lemma rfind_dot_md (t : string) : Str.rfind "." (t ++ ".md") = Some (String.length t).
Proof. induction t as [|c t IH]; simpl; [reflexivity | now rewrite IH]. Qed.

Lemma length_md (t : string) : String.length (t ++ ".md") = String.length t + 3.
Proof. induction t as [|c t IH]; simpl; [reflexivity | now rewrite IH]. Qed.

Lemma drop_md (t : string) : Str.drop (String.length t) (t ++ ".md") = ".md".
Proof.
  unfold Str.drop. induction t as [|c t IH]; simpl; [reflexivity | exact IH].
Qed.

(** A name that ends in [.md] has the suffix [.md], unless it is [.md]
    itself, which has none. *)
Lemma suffix_of_md_name (q : Path) (t : string) :
  name q = (t ++ ".md")%string -> suffix q = ".md" \/ suffix q = "".
Proof.
  intros E. unfold suffix, suffix_index. rewrite E, rfind_dot_md, length_md.
  destruct t as [|c t].
  - now right.
  - left. replace (String.length (String c t) + 3 - 1)
      with (String.length (String c t) + 2) by lia.
    assert (H : ((0 <? String.length (String c t))
                 && (String.length (String c t) <? String.length (String c t) + 2))%nat
                = true).
    { apply andb_true_iff. split; apply Nat.ltb_lt; simpl; lia. }
    rewrite H. apply drop_md.
Qed.

(** Whatever the search returns is named [index.md], [{...}.md] or [.md]. *)
Lemma description_path_func_suffix fs r q :
  description_path_func fs r = Ok (Some q) -> suffix q = ".md" \/ suffix q = "".
Proof.
  unfold description_path_func.
  destruct (path_exists fs (truediv (path r) "index.md")) as [[|]|e];
    [| |discriminate].
  { intros [= <-]. rewrite truediv_index.
    apply (suffix_of_md_name _ "index"). apply name_make_child. }
  destruct (path_exists fs (truediv (path r) (slug r ++ ".md"))) as [[|]|e];
    [| |discriminate].
  { intros [= <-]. destruct (name_truediv_md (path r) (slug r)) as [t E].
    now apply (suffix_of_md_name _ t). }
  destruct (glob fs (path r) ".md") as [[|x l]|e] eqn:G; try discriminate.
  simpl. intros [= <-].
  destruct (glob_literal fs (path r) ".md" (x :: l) x G) as [-> _]; [now left|].
  apply (suffix_of_md_name _ ""). apply name_make_child.
Qed.

(* ===================================================================== *)
(** ** The explicit description path is never read *)
(* ===================================================================== *)

Lemma ignores_ret {A} (a : A) : ignores_explicit (ret a).
Proof. intros v w. reflexivity. Qed.

Lemma ignores_lift {A} (r : result A) : ignores_explicit (lift r).
Proof. intros v w. reflexivity. Qed.

Lemma ignores_logging m a : ignores_explicit (logging_debug m a).
Proof. intros v w. reflexivity. Qed.

Lemma ignores_bind {A B} (m : M A) (k : A -> M B) :
  ignores_explicit m -> (forall a, ignores_explicit (k a)) ->
  ignores_explicit (bind m k).
Proof.
  intros Hm Hk v w. unfold bind. rewrite Hm.
  destruct (m w) as [[a|e] w1]; simpl; [apply Hk | reflexivity].
Qed.

(** A continuation of [get_self] that reads the other fields only. *)
Lemma ignores_self {A} (k : Resource -> M A) :
  (forall v r, k (with_explicit v r) = k r) ->
  (forall r, ignores_explicit (k r)) ->
  ignores_explicit (bind get_self k).
Proof.
  intros Hk Hi v w. unfold bind, get_self. simpl. rewrite Hk. apply Hi.
Qed.

Lemma ignores_cached {A} (cache : Resource -> option A)
    (store : A -> Resource -> Resource) (func : M A) :
  (forall v r, cache (with_explicit v r) = cache r) ->
  (forall a v r, store a (with_explicit v r) = with_explicit v (store a r)) ->
  ignores_explicit func ->
  ignores_explicit (cached_property cache store func).
Proof.
  intros Hc Hs Hf v w. unfold cached_property. simpl. rewrite Hc, Hf.
  destruct (cache (self w)) as [a|]; [reflexivity|].
  destruct (func w) as [[a|e] w1]; simpl; [|reflexivity].
  unfold set_explicit. simpl. now rewrite Hs.
Qed.

Lemma ignores_assets fs : ignores_explicit (assets fs).
Proof.
  apply ignores_cached; try reflexivity.
  apply ignores_self; [reflexivity | intros r; apply ignores_lift].
Qed.

Lemma ignores_description_path fs : ignores_explicit (description_path fs).
Proof.
  apply ignores_cached; try reflexivity.
  apply ignores_self; [reflexivity | intros r; apply ignores_lift].
Qed.

Section ExplicitPathFacts.

Variable sluggify : string -> string.
Variable is_wide : FS -> Path -> bool.
Variable load_file : FS -> Path -> result Document.

Lemma ignores_generate fs :
  ignores_explicit (_generate_description sluggify is_wide fs).
Proof.
  apply ignores_self; [reflexivity | intros r].
  apply ignores_bind; [apply ignores_lift | intros body].
  apply ignores_bind; [apply ignores_assets | intros [|x l]].
  - apply ignores_ret.
  - apply ignores_bind; [apply ignores_assets | intros candidates].
    apply ignores_bind; [apply ignores_assets | intros a0].
    apply ignores_bind; [apply ignores_lift | intros first].
    apply ignores_bind; [apply ignores_lift | intros rel].
    apply ignores_ret.
Qed.

Lemma ignores_description fs :
  ignores_explicit (description sluggify is_wide load_file fs).
Proof.
  apply ignores_cached; try reflexivity.
  apply ignores_self; [reflexivity | intros r].
  apply ignores_bind; [apply ignores_description_path | intros [p|]].
  - apply ignores_bind; [apply ignores_description_path | intros [q|]];
      apply ignores_lift.
  - apply ignores_bind; [apply ignores_logging | intros _].
    apply ignores_generate.
Qed.

(** C1, as the code has it.  The search behind [description_path] reads
    the directory, [path] and [slug] only: it returns the same for two
    instances that agree on [path] and [slug], whatever description path
    they were given; what it returns is [path/index.md], [path/{slug}.md]
    or the entry named [.md], so it can coincide with a given path of that
    shape but is never the [.html] file handed to [from_path]; and
    [description] returns the same document, or raises the same, and logs
    the same whatever [_description_path] holds. *)
Theorem description_path_ignores_explicit_path fs :
  (forall r r', path r = path r' -> slug r = slug r' ->
                description_path_func fs r = description_path_func fs r')
  /\ (forall r q, description_path_func fs r = Ok (Some q) ->
                  q = truediv (path r) "index.md"
                  \/ q = truediv (path r) (slug r ++ ".md")
                  \/ q = make_child_relpath (path r) ".md")
  /\ (forall k p, suffix p = ".html" ->
                  explicit_description_path (from_path sluggify k p) = Some p
                  /\ description_path_func fs (from_path sluggify k p)
                     <> Ok (Some p))
  /\ (forall v w,
         fst (description_path fs (set_explicit v w)) = fst (description_path fs w)
         /\ fst (description sluggify is_wide load_file fs (set_explicit v w))
            = fst (description sluggify is_wide load_file fs w)
         /\ records (snd (description sluggify is_wide load_file fs (set_explicit v w)))
            = records (snd (description sluggify is_wide load_file fs w))).
Proof.
  split; [|split; [|split]].
  - intros r r' Hp Hs. unfold description_path_func. now rewrite Hp, Hs.
  - intros r q. unfold description_path_func.
    destruct (path_exists fs (truediv (path r) "index.md")) as [[|]|e];
      [intros [= <-]; now left | | discriminate].
    destruct (path_exists fs (truediv (path r) (slug r ++ ".md"))) as [[|]|e];
      [intros [= <-]; right; now left | | discriminate].
    destruct (glob fs (path r) ".md") as [[|x l]|e] eqn:G; try discriminate.
    simpl. intros [= <-]. right. right.
    destruct (glob_literal fs (path r) ".md" (x :: l) x G) as [-> _];
      [now left | reflexivity].
  - intros k p Hs. split.
    + unfold from_path. rewrite Hs. reflexivity.
    + intros H. apply description_path_func_suffix in H.
      rewrite Hs in H. destruct H; discriminate.
  - intros v w.
    rewrite (ignores_description_path fs v w), (ignores_description fs v w).
    repeat split.
Qed.

End ExplicitPathFacts.

(* ===================================================================== *)
(** ** The statements on the example site *)
(* ===================================================================== *)

(** The derived path and the given path coincide when the given path is the
    [index.md] the search finds. *)
Lemma description_path_equals_given_index :
  let p := of_string "content/pieces/owl/index.md" in
  let r := from_path Demo.sluggify Piece p in
  explicit_description_path r = Some p
  /\ description_path Demo.site (Demo.start r)
     = (Ok (Some p),
        mkWorld (store_description_path (Some p) r) [])
  /\ description_path_func Demo.site r = Ok (Some p).
Proof. repeat split. Qed.

(** The [.html] file handed to [from_path] is stored and then not found by
    the search, which settles on [index.md]. *)
Lemma description_path_ignores_given_html :
  let p := of_string "content/pieces/owl/owl.html" in
  suffix p = ".html"
  /\ explicit_description_path (from_path Demo.sluggify Piece p) = Some p
  /\ description_path_func Demo.site (from_path Demo.sluggify Piece p)
     <> Ok (Some p)
  /\ description_path_func Demo.site (from_path Demo.sluggify Piece p)
     = description_path_func Demo.site (Demo.Piece_ (Demo.pieces "owl") None).
Proof.
  intros p.
  pose proof (description_path_ignores_explicit_path
                Demo.sluggify Demo.is_wide Demo.load_file Demo.site)
    as (Hsame & _ & Hhtml & _).
  split; [reflexivity|].
  split; [exact (proj1 (Hhtml Piece p eq_refl))|].
  split; [exact (proj2 (Hhtml Piece p eq_refl))|].
  apply Hsame; reflexivity.
Defined.



(** [owl] is loaded from its [index.md] and nothing is logged. *)
Lemma description_of_owl_is_loaded :
  let w := Demo.start (Demo.Piece_ (Demo.pieces "owl") None) in
  let p := of_string "content/pieces/owl/index.md" in
  fst (description Demo.sluggify Demo.is_wide Demo.load_file Demo.site w)
  = Demo.load_file Demo.site p
  /\ records (snd (description Demo.sluggify Demo.is_wide Demo.load_file Demo.site w))
     = [].
Proof.
  intros w p.
  exact (description_loaded_or_synthesized
           Demo.sluggify Demo.is_wide Demo.load_file Demo.site w (Some p)
           (mkWorld (store_description_path (Some p) (self w)) [])
           eq_refl eq_refl).
Defined.


(** C5.  The code at a slug with a [<] in it, in a directory that is there
    and empty: the slug goes into the markup of the heading unescaped, the
    markup does not parse, and synthesis raises [ParseError] where every
    slug was to give a document. *)
Theorem synthesis_raises_on_markup_in_slug :
  let w := Demo.start (Demo.Piece_ (Demo.pieces "empty") (Some "i<3owls")) in
  slug (self w) = "i<3owls"
  /\ listdir Demo.site (path (self w)) = Ok []
  /\ ET.fromstring "<html><section><h1>i<3owls</h1></section></html>"
     = Raise ParseError
  /\ _generate_description Demo.sluggify Demo.is_wide Demo.site w
     = (Raise ParseError, w).
Proof. repeat split. Qed.

(** C6.  The code at a slug that is markup, in a directory with neither
    description file nor asset: the slug goes into the markup of the
    heading unescaped, so the heading of the document holds an element and
    has no text, where its text was to be the slug. *)
Theorem description_heading_is_not_the_slug :
  let w := Demo.start (Demo.Piece_ (Demo.pieces "empty") (Some "<i>x</i>")) in
  slug (self w) = "<i>x</i>"
  /\ description_path_func Demo.site (self w) = Ok None
  /\ assets_func Demo.site (self w) = Ok []
  /\ exists doc,
      fst (description Demo.sluggify Demo.is_wide Demo.load_file Demo.site w) = Ok doc
      /\ body doc
         = ET.Elem "html" [] None
             [ET.Elem "section" [] None
                [ET.Elem "h1" [] None [ET.Elem "i" [] (Some "x") [] None] None] None]
             None
      /\ ~ only_heading (slug (self w)) doc.
Proof.
  intros w. repeat split.
  eexists. split; [reflexivity|]. split; [reflexivity|].
  intros [H _]. discriminate H.
Qed.

(** The three entries of [heron]: the extensionless [notes] is left out. *)
Lemma assets_of_heron :
  let w := Demo.start (Demo.Piece_ (Demo.pieces "heron") None) in
  exists l w',
    assets Demo.site w = (Ok l, w')
    /\ l = [of_string "content/pieces/heron/cover.jpg";
            of_string "content/pieces/heron/heron.png"]
    /\ assets Demo.bare w' = (Ok l, w').
Proof.
  intros w.
  destruct (assets_children_filtered_and_cached
              Demo.site w ["cover.jpg"; "heron.png"; "notes"] eq_refl eq_refl)
    as (l & w' & E & Hl & _ & _ & Hagain).
  exists l, w'. split; [exact E|]. split; [exact Hl | apply Hagain].
Defined.

(** An empty slug passed to the constructor is replaced. *)
Lemma empty_slug_is_replaced :
  slug (Resource_init Demo.sluggify Piece (Demo.pieces "Owl") (Some "") None Omitted)
  = "owl"
  /\ "owl" <> "".
Proof. split; [reflexivity | discriminate]. Qed.

Lemma given_slug_is_kept :
  "night-owl" <> ""
  /\ slug (Resource_init Demo.sluggify Piece (Demo.pieces "owl") (Some "night-owl")
                         None Omitted)
     = "night-owl".
Proof.
  assert (H : "night-owl" <> "") by discriminate.
  split; [exact H|].
  exact (proj2 (proj2 (slug_default_or_supplied
                         Demo.sluggify Piece (Demo.pieces "owl") None Omitted))
               "night-owl" H).
Defined.

Lemma from_path_of_file_and_of_directory :
  let f := of_string "content/pieces/owl/owl.html" in
  let d := Demo.pieces "heron" in
  (path (from_path Demo.sluggify Piece f) = Demo.pieces "owl"
   /\ explicit_description_path (from_path Demo.sluggify Piece f) = Some f)
  /\ (path (from_path Demo.sluggify Project d) = d
      /\ explicit_description_path (from_path Demo.sluggify Project d) = None).
Proof.
  intros f d. split.
  - destruct (proj1 (from_path_directory_and_explicit_path Demo.sluggify Piece f))
      as (_ & Hp & _ & He); [now right|].
    split; [exact Hp | exact He].
  - destruct (proj2 (from_path_directory_and_explicit_path Demo.sluggify Project d))
      as (_ & Hp & He); [discriminate | discriminate |].
    split; [exact Hp | exact He].
Defined.

Lemma slug_of_file_in_blue_heron :
  let f := of_string "content/pieces/Blue Heron/index.md" in
  suffix f = ".md"
  /\ slug (from_path Demo.sluggify Piece f) = Demo.sluggify "Blue Heron".
Proof.
  intros f. split; [reflexivity|].
  exact (from_path_slug_of_parent Demo.sluggify Piece f (or_introl eq_refl)).
Defined.

(* ===================================================================== *)
(** ** The headline image *)
(* ===================================================================== *)

(** X1.  The element [make_headline_image] builds is an [img] without text
    or children whose attributes are [src], [alt] and [class], in that
    order; [class] is ["wide"] or ["tall"] and nothing else, and the three
    arguments can be read back from the element: two calls build the same
    element only from the same arguments. *)
Theorem make_headline_image_round_trip src alt wide :
  let img := make_headline_image src alt wide in
  ET.tag img = "img" /\ ET.text img = None /\ ET.children img = []
  /\ map fst (ET.attrib img) = ["src"; "alt"; "class"]
  /\ ET.get img "src" = Some src
  /\ ET.get img "alt" = Some alt
  /\ (ET.get img "class" = Some "wide" <-> wide = true)
  /\ (ET.get img "class" = Some "tall" <-> wide = false)
  /\ forall src' alt' wide',
       make_headline_image src' alt' wide' = img ->
       src' = src /\ alt' = alt /\ wide' = wide.
Proof.
  intros img.
  assert (Hback : forall src' alt' wide',
             make_headline_image src' alt' wide' = img ->
             src' = src /\ alt' = alt /\ wide' = wide).
  { unfold img. intros src' alt' [|]; destruct wide; cbn;
      intros [= -> ->]; now repeat split. }
  unfold img. destruct wide; cbn.
  - repeat (split; [reflexivity|]). split; [now split|].
    split; [split; discriminate | exact Hback].
  - repeat (split; [reflexivity|]). split; [split; discriminate|].
    split; [now split | exact Hback].
Qed.

(* ===================================================================== *)
(** ** What a read leaves behind *)
(* ===================================================================== *)

Section Preservation.

Variable R : World -> World -> Prop.
Hypothesis R_refl : forall w, R w w.
Hypothesis R_trans : forall w1 w2 w3, R w1 w2 -> R w2 w3 -> R w1 w3.

Lemma preserves_ret {A} (a : A) : preserves R (ret a).
Proof. intros w. apply R_refl. Qed.

Lemma preserves_lift {A} (r : result A) : preserves R (lift r).
Proof. intros w. apply R_refl. Qed.

Lemma preserves_bind {A B} (m : M A) (k : A -> M B) :
  preserves R m -> (forall a, preserves R (k a)) -> preserves R (bind m k).
Proof.
  intros Hm Hk w. unfold bind. specialize (Hm w).
  destruct (m w) as [[a|e] w1]; simpl in *; [|assumption].
  exact (R_trans _ _ _ Hm (Hk a w1)).
Qed.

Lemma preserves_self {A} (k : Resource -> M A) :
  (forall r, preserves R (k r)) -> preserves R (bind get_self k).
Proof. intros Hk w. unfold bind, get_self. apply Hk. Qed.

Lemma preserves_cached {A} (cache : Resource -> option A)
    (store : A -> Resource -> Resource) (func : M A) :
  (forall a w w', cache (self w) = None -> R w w' ->
                  R w (mkWorld (store a (self w')) (records w'))) ->
  preserves R func ->
  preserves R (cached_property cache store func).
Proof.
  intros Hs Hf w. unfold cached_property.
  destruct (cache (self w)) as [v|] eqn:E; [apply R_refl|].
  specialize (Hf w). destruct (func w) as [[a|e] w1]; simpl in *;
    [now apply Hs | assumption].
Qed.

End Preservation.

Lemma keeps_refl {A} (c : option A) : keeps c c.
Proof. intros v H. exact H. Qed.

Lemma keeps_trans {A} (c1 c2 c3 : option A) :
  keeps c1 c2 -> keeps c2 c3 -> keeps c1 c3.
Proof. intros H1 H2 v H. apply H2, H1, H. Qed.

Lemma keeps_none {A} (c : option A) : keeps None c.
Proof. intros v H. discriminate H. Qed.

Lemma later_refl w : later w w.
Proof.
  unfold later. repeat (split; [reflexivity || apply keeps_refl|]).
  exists []. now rewrite app_nil_r.
Qed.

Lemma later_trans w1 w2 w3 : later w1 w2 -> later w2 w3 -> later w1 w3.
Proof.
  intros (C1 & P1 & S1 & D1 & A1 & Q1 & X1 & m1 & L1)
         (C2 & P2 & S2 & D2 & A2 & Q2 & X2 & m2 & L2).
  unfold later. repeat split; try congruence;
    try (eapply keeps_trans; eassumption).
  exists (m1 ++ m2). now rewrite L2, L1, app_assoc.
Qed.

Lemma later_logging m a : preserves later (logging_debug m a).
Proof.
  intros w. unfold later, logging_debug. simpl.
  repeat (split; [reflexivity || apply keeps_refl|]). now eexists.
Qed.

Lemma later_store_assets a w w' :
  assets_cache (self w) = None -> later w w' ->
  later w (mkWorld (store_assets a (self w')) (records w')).
Proof.
  intros E (C & P & S & D & A & Q & X & L). unfold later. simpl.
  rewrite E. repeat split; try assumption. apply keeps_none.
Qed.

Lemma later_store_description_path a w w' :
  description_path_cache (self w) = None -> later w w' ->
  later w (mkWorld (store_description_path a (self w')) (records w')).
Proof.
  intros E (C & P & S & D & A & Q & X & L). unfold later. simpl.
  rewrite E. repeat split; try assumption. apply keeps_none.
Qed.

Lemma later_store_description a w w' :
  description_cache (self w) = None -> later w w' ->
  later w (mkWorld (store_description a (self w')) (records w')).
Proof.
  intros E (C & P & S & D & A & Q & X & L). unfold later. simpl.
  rewrite E. repeat split; try assumption. apply keeps_none.
Qed.

Lemma later_assets fs : preserves later (assets fs).
Proof.
  apply preserves_cached;
    [apply later_refl | apply later_store_assets |].
  apply preserves_self. intros r.
  apply preserves_lift, later_refl.
Qed.

Lemma later_description_path fs : preserves later (description_path fs).
Proof.
  apply preserves_cached;
    [apply later_refl | apply later_store_description_path |].
  apply preserves_self. intros r.
  apply preserves_lift, later_refl.
Qed.

Lemma same_description_cache_refl w : same_description_cache w w.
Proof. reflexivity. Qed.

Lemma same_description_cache_trans w1 w2 w3 :
  same_description_cache w1 w2 -> same_description_cache w2 w3 ->
  same_description_cache w1 w3.
Proof. unfold same_description_cache. congruence. Qed.

Lemma same_description_cache_assets fs :
  preserves same_description_cache (assets fs).
Proof.
  apply preserves_cached; [apply same_description_cache_refl | |].
  - intros a w w' _ H. exact H.
  - apply preserves_self. intros r.
    apply preserves_lift, same_description_cache_refl.
Qed.

Lemma same_description_cache_description_path fs :
  preserves same_description_cache (description_path fs).
Proof.
  apply preserves_cached; [apply same_description_cache_refl | |].
  - intros a w w' _ H. exact H.
  - apply preserves_self. intros r.
    apply preserves_lift, same_description_cache_refl.
Qed.

Section ReadFacts.

Variable sluggify : string -> string.
Variable is_wide : FS -> Path -> bool.
Variable load_file : FS -> Path -> result Document.

Lemma preserves_generate (R : World -> World -> Prop) fs :
  (forall w, R w w) ->
  (forall w1 w2 w3, R w1 w2 -> R w2 w3 -> R w1 w3) ->
  preserves R (assets fs) ->
  preserves R (_generate_description sluggify is_wide fs).
Proof.
  intros Hrefl Htrans Ha.
  apply preserves_self. intros r.
  apply (preserves_bind R Htrans); [now apply preserves_lift | intros body].
  apply (preserves_bind R Htrans); [exact Ha | intros [|x l]].
  - now apply preserves_ret.
  - apply (preserves_bind R Htrans); [exact Ha | intros candidates].
    apply (preserves_bind R Htrans); [exact Ha | intros a0].
    apply (preserves_bind R Htrans); [now apply preserves_lift | intros first].
    apply (preserves_bind R Htrans); [now apply preserves_lift | intros rel].
    now apply preserves_ret.
Qed.

Lemma preserves_description_func (R : World -> World -> Prop) fs :
  (forall w, R w w) ->
  (forall w1 w2 w3, R w1 w2 -> R w2 w3 -> R w1 w3) ->
  preserves R (assets fs) ->
  preserves R (description_path fs) ->
  (forall m a, preserves R (logging_debug m a)) ->
  preserves R (description_func sluggify is_wide load_file fs).
Proof.
  intros Hrefl Htrans Ha Hp Hl.
  apply preserves_self. intros r.
  apply (preserves_bind R Htrans); [exact Hp | intros [p|]].
  - apply (preserves_bind R Htrans); [exact Hp | intros [q|]];
      now apply preserves_lift.
  - apply (preserves_bind R Htrans); [apply Hl | intros _].
    now apply preserves_generate.
Qed.

Lemma later_description fs :
  preserves later (description sluggify is_wide load_file fs).
Proof.
  apply preserves_cached;
    [apply later_refl | apply later_store_description |].
  apply preserves_description_func;
    [apply later_refl | apply later_trans | apply later_assets
     | apply later_description_path | apply later_logging].
Qed.

(** X2.  Whatever is read, in whatever state and on whatever file system,
    the instance keeps its class, [path], [slug] and [_description_path],
    every value already stored by a cached property stays as it is, and
    the log keeps its records, new ones coming after them. *)
Theorem reads_only_add fs w :
  later w (snd (assets fs w))
  /\ later w (snd (description_path fs w))
  /\ later w (snd (_generate_description sluggify is_wide fs w))
  /\ later w (snd (description sluggify is_wide load_file fs w)).
Proof.
  split; [apply later_assets|]. split; [apply later_description_path|].
  split; [|apply later_description].
  apply preserves_generate;
    [apply later_refl | apply later_trans | apply later_assets].
Qed.

Lemma description_func_same_cache fs :
  preserves same_description_cache
            (description_func sluggify is_wide load_file fs).
Proof.
  apply preserves_description_func;
    [apply same_description_cache_refl | apply same_description_cache_trans
     | apply same_description_cache_assets
     | apply same_description_cache_description_path |].
  intros m a w. reflexivity.
Qed.

Lemma description_func_raises fs w e w' :
  description_path fs w = (Raise e, w') ->
  description_func sluggify is_wide load_file fs w = (Raise e, w').
Proof.
  intros H. unfold description_func. cbv [bind get_self]. now rewrite H.
Qed.

(** X3.  [description] stores its document only when it has one.  After a
    read that returned a document, every later read returns that document
    and changes nothing, whatever the directory has become.  After a read
    that raised, no document is stored, so the next read runs again.
    Either it was the search for the description file that raised, and then
    nothing at all is stored; or the search had returned, and then its
    result is stored and is what the next read, on any file system, goes
    by. *)
Theorem description_stored_on_success_only fs w :
  (forall d w1,
      description sluggify is_wide load_file fs w = (Ok d, w1) ->
      description_cache (self w1) = Some d
      /\ forall fs', description sluggify is_wide load_file fs' w1 = (Ok d, w1))
  /\ (forall e w1,
         description sluggify is_wide load_file fs w = (Raise e, w1) ->
         description_cache (self w1) = None
         /\ ((description_path fs w = (Raise e, w) /\ w1 = w)
             \/ exists dp,
                 fst (description_path fs w) = Ok dp
                 /\ description_path_cache (self w1) = Some dp
                 /\ forall fs', description_path fs' w1 = (Ok dp, w1))).
Proof.
  split.
  - intros d w1 H.
    assert (Hc : description_cache (self w1) = Some d).
    { revert H. unfold description, cached_property.
      destruct (description_cache (self w)) as [v|] eqn:E.
      - intros [= <- <-]. exact E.
      - destruct (description_func _ _ _ fs w) as [[d'|e] w'];
          intros [= <- <-]; reflexivity. }
    split; [exact Hc|]. intros fs'.
    unfold description, cached_property. now rewrite Hc.
  - intros e w1 H.
    unfold description, cached_property in H.
    destruct (description_cache (self w)) as [v|] eqn:E; [discriminate|].
    pose proof (description_func_same_cache fs w) as Hsame.
    unfold same_description_cache in Hsame.
    destruct (description_path fs w) as [[dp|e0] w0] eqn:Hdp.
    + destruct (description_path_returns fs w dp w0 Hdp) as (_ & Hc0 & _).
      pose proof (description_func_eq sluggify is_wide load_file fs w dp w0 Hdp)
        as Hf.
      destruct (description_func _ _ _ fs w) as [[d'|e'] w'] eqn:F;
        [discriminate|]. injection H as <- <-. simpl in Hsame.
      split; [congruence|]. right. exists dp. split; [reflexivity|].
      assert (Hc1 : description_path_cache (self w') = Some dp).
      { destruct dp as [p|].
        - injection Hf as _ <-. exact Hc0.
        - pose proof (preserves_generate later fs later_refl later_trans
                        (later_assets fs)
                        (mkWorld (self w0)
                                 (records w0 ++ [synthesis_record (self w)])))
            as (_ & _ & _ & _ & _ & Hk & _).
          rewrite <- Hf in Hk. simpl in Hk. now apply Hk. }
      split; [exact Hc1|]. intros fs'. now apply description_path_hit.
    + destruct (description_path_raises fs w e0 w0 Hdp) as (-> & _ & _).
      rewrite (description_func_raises fs w e0 w Hdp) in H.
      injection H as <- <-. split; [exact E|]. left. now split.
Qed.

(** X4.  Reading [description_path] never logs.  A read that returns has
    stored its value, what the search found on the file system of that
    moment if the instance had not read it yet, and from then on every read
    returns that value, whatever the directory has become.  A read that
    raises is a search that raised: it leaves the instance as it was, with
    nothing stored, so that the next read searches again. *)
Theorem description_path_stored_when_returned fs w :
  records (snd (description_path fs w)) = records w
  /\ (forall dp w1,
         description_path fs w = (Ok dp, w1) ->
         description_path_cache (self w1) = Some dp
         /\ (description_path_cache (self w) = None ->
             description_path_func fs (self w) = Ok dp)
         /\ forall fs', description_path fs' w1 = (Ok dp, w1))
  /\ (forall e w1,
         description_path fs w = (Raise e, w1) ->
         w1 = w
         /\ description_path_cache (self w1) = None
         /\ description_path_func fs (self w) = Raise e).
Proof.
  split; [|split].
  - destruct (description_path fs w) as [[dp|e] w1] eqn:H; simpl.
    + now destruct (description_path_returns fs w dp w1 H).
    + now destruct (description_path_raises fs w e w1 H) as (-> & _).
  - intros dp w1 H.
    destruct (description_path_returns fs w dp w1 H) as (_ & Hc & _).
    split; [exact Hc|]. split.
    + intros E. rewrite (description_path_miss fs w E) in H.
      destruct (description_path_func fs (self w)); congruence.
    + intros fs'. now apply description_path_hit.
  - intros e w1 H.
    destruct (description_path_raises fs w e w1 H) as (-> & Hn & Hf).
    now repeat split.
Qed.

(** X5.  When a description file is found, [description] does not list the
    directory: the state it leaves is the one the search left, with the
    loaded document stored unless loading raised, and [assets] is as unread
    as before. *)
Theorem loaded_description_leaves_assets_unread fs w p w1 :
  description_cache (self w) = None ->
  description_path fs w = (Ok (Some p), w1) ->
  snd (description sluggify is_wide load_file fs w)
  = match load_file fs p with
    | Ok d => mkWorld (store_description d (self w1)) (records w1)
    | Raise _ => w1
    end
  /\ assets_cache (self (snd (description sluggify is_wide load_file fs w)))
     = assets_cache (self w).
Proof.
  intros Hc Hdp.
  destruct (description_path_returns fs w (Some p) w1 Hdp)
    as (_ & _ & _ & _ & _ & Ha).
  unfold description, cached_property. rewrite Hc.
  rewrite (description_func_eq sluggify is_wide load_file fs w (Some p) w1 Hdp).
  destruct (load_file fs p) as [d|e]; simpl; now split.
Qed.

End ReadFacts.

(* ===================================================================== *)
(** ** The two kinds *)
(* ===================================================================== *)

Lemma kind_blind_ret {A} k (a : A) : kind_blind k (ret a) (ret a).
Proof. intros w1 w2 H. now split. Qed.

Lemma kind_blind_lift {A} k (r : result A) : kind_blind k (lift r) (lift r).
Proof. intros w1 w2 H. now split. Qed.

Lemma kind_blind_logging k m a a' :
  kind_blind k (logging_debug m a) (logging_debug m a').
Proof. intros w1 w2 H. split; [reflexivity | exact H]. Qed.

Lemma kind_blind_bind {A B} k (m1 m2 : M A) (k1 k2 : A -> M B) :
  kind_blind k m1 m2 -> (forall a, kind_blind k (k1 a) (k2 a)) ->
  kind_blind k (bind m1 k1) (bind m2 k2).
Proof.
  intros Hm Hk w1 w2 H. unfold bind. destruct (Hm w1 w2 H) as [E S].
  destruct (m1 w1) as [[a|e] w1'], (m2 w2) as [[a'|e'] w2']; simpl in *;
    try discriminate; injection E as <-; [now apply Hk | now split].
Qed.

Lemma kind_blind_self {A} k (k1 k2 : Resource -> M A) :
  (forall r, kind_blind k (k1 (with_cls k r)) (k2 r)) ->
  kind_blind k (bind get_self k1) (bind get_self k2).
Proof.
  intros Hk w1 w2 H. unfold bind, get_self.
  pose proof H as H'. unfold same_but_cls in H'. rewrite H'.
  now apply Hk.
Qed.

Lemma kind_blind_cached {A} k (cache : Resource -> option A)
    (store : A -> Resource -> Resource) (f1 f2 : M A) :
  (forall r, cache (with_cls k r) = cache r) ->
  (forall a r, store a (with_cls k r) = with_cls k (store a r)) ->
  kind_blind k f1 f2 ->
  kind_blind k (cached_property cache store f1) (cached_property cache store f2).
Proof.
  intros Hc Hs Hf w1 w2 H. unfold cached_property.
  pose proof H as H'. unfold same_but_cls in H'. rewrite H', Hc.
  destruct (cache (self w2)) as [v|]; [now split|].
  destruct (Hf w1 w2 H) as [E S].
  destruct (f1 w1) as [[a|e] w1'], (f2 w2) as [[a'|e'] w2']; simpl in *;
    try discriminate; injection E as <-; [|now split].
  split; [reflexivity|]. unfold same_but_cls in *. simpl. now rewrite S, Hs.
Qed.

Lemma kind_blind_assets k fs : kind_blind k (assets fs) (assets fs).
Proof.
  apply kind_blind_cached; try reflexivity.
  apply kind_blind_self. intros r. apply kind_blind_lift.
Qed.

Lemma kind_blind_description_path k fs :
  kind_blind k (description_path fs) (description_path fs).
Proof.
  apply kind_blind_cached; try reflexivity.
  apply kind_blind_self. intros r. apply kind_blind_lift.
Qed.

Section KindFacts.

Variable sluggify : string -> string.
Variable is_wide : FS -> Path -> bool.
Variable load_file : FS -> Path -> result Document.

Lemma kind_blind_generate k fs :
  kind_blind k (_generate_description sluggify is_wide fs)
             (_generate_description sluggify is_wide fs).
Proof.
  apply kind_blind_self. intros r.
  apply kind_blind_bind; [apply kind_blind_lift | intros body].
  apply kind_blind_bind; [apply kind_blind_assets | intros [|x l]].
  - apply kind_blind_ret.
  - apply kind_blind_bind; [apply kind_blind_assets | intros candidates].
    apply kind_blind_bind; [apply kind_blind_assets | intros a0].
    apply kind_blind_bind; [apply kind_blind_lift | intros first].
    apply kind_blind_bind; [apply kind_blind_lift | intros rel].
    apply kind_blind_ret.
Qed.

Lemma kind_blind_description k fs :
  kind_blind k (description sluggify is_wide load_file fs)
             (description sluggify is_wide load_file fs).
Proof.
  apply kind_blind_cached; try reflexivity.
  apply kind_blind_self. intros r.
  apply kind_blind_bind; [apply kind_blind_description_path | intros [p|]].
  - apply kind_blind_bind; [apply kind_blind_description_path | intros [q|]];
      apply kind_blind_lift.
  - apply kind_blind_bind; [apply kind_blind_logging | intros _].
    apply kind_blind_generate.
Qed.

(** What a read of [description] adds to the log: one record when it
    synthesizes, nothing otherwise. *)
Lemma description_log fs w :
  records (snd (description sluggify is_wide load_file fs w))
  = records w
    ++ match description_cache (self w), fst (description_path fs w) with
       | None, Ok None => [synthesis_record (self w)]
       | _, _ => []
       end.
Proof.
  destruct (description_cache (self w)) as [d|] eqn:Hc.
  - unfold description, cached_property. rewrite Hc. simpl.
    now rewrite app_nil_r.
  - destruct (describe_miss sluggify is_wide load_file fs w Hc) as [_ ->].
    destruct (description_path fs w) as [[dp|e] w1] eqn:Hdp.
    + destruct (description_path_returns fs w dp w1 Hdp) as (Hr & _).
      rewrite (description_func_eq sluggify is_wide load_file fs w dp w1 Hdp).
      simpl. destruct dp as [p|]; simpl.
      * now rewrite Hr, app_nil_r.
      * now rewrite generate_records, Hr.
    + destruct (description_path_raises fs w e w1 Hdp) as (-> & _).
      rewrite (description_func_raises sluggify is_wide load_file fs w e w Hdp).
      simpl. now rewrite app_nil_r.
Qed.

(** X6.  An instance and the same instance made from the other class give
    the same [assets], the same [description_path] and the same
    [description], results and errors alike; the two reads of
    [description] log alike too, one record or none, and the record of
    the one names ["pieces"] where that of the other names ["projects"]. *)
Theorem piece_and_project_differ_in_tag_only fs r lg :
  let a := mkWorld (with_cls Piece r) lg in
  let b := mkWorld (with_cls Project r) lg in
  let fmt := "generating default description for %s/%s" in
  fst (assets fs a) = fst (assets fs b)
  /\ fst (description_path fs a) = fst (description_path fs b)
  /\ fst (description sluggify is_wide load_file fs a)
     = fst (description sluggify is_wide load_file fs b)
  /\ exists synthesized : bool,
      records (snd (description sluggify is_wide load_file fs a))
      = lg ++ (if synthesized
               then [mkLogRecord "DEBUG" fmt ["pieces"; slug r]] else [])
      /\ records (snd (description sluggify is_wide load_file fs b))
         = lg ++ (if synthesized
                  then [mkLogRecord "DEBUG" fmt ["projects"; slug r]] else []).
Proof.
  intros a b fmt.
  assert (H : same_but_cls Piece a b) by reflexivity.
  destruct (kind_blind_assets Piece fs a b H) as [Ha _].
  destruct (kind_blind_description_path Piece fs a b H) as [Hp _].
  destruct (kind_blind_description Piece fs a b H) as [Hd _].
  split; [exact Ha|]. split; [exact Hp|]. split; [exact Hd|].
  rewrite (description_log fs a), (description_log fs b), Hp. simpl.
  destruct (description_cache r); [exists false; now split|].
  destruct (fst (description_path fs b)) as [[p|]|e];
    [exists false | exists true | exists false]; now split.
Qed.

End KindFacts.

(* ===================================================================== *)
(** ** The description file on the file system *)
(* ===================================================================== *)

Lemma walk_app t limit cur a b :
  walk t limit cur (a ++ b)
  = match walk t limit cur a with
    | Ok loc => walk t limit loc b
    | Raise e => Raise e
    end.
Proof.
  revert cur. induction a as [|c a IH]; intros cur; simpl; [reflexivity|].
  destruct (lookup t cur) as [[x|m es]|]; try reflexivity.
  destruct (negb (searchable m)); [reflexivity|].
  destruct (String.eqb c ".."); [apply IH|].
  destruct (limit <? String.length c)%nat; [reflexivity | apply IH].
Qed.

Lemma lookup_snoc t loc n :
  lookup t (loc ++ [n])
  = match lookup t loc with
    | Some (Dir _ es) => find_entry n es
    | _ => None
    end.
Proof.
  revert t. induction loc as [|c loc IH]; intros t; simpl.
  - destruct t as [x|m es]; [reflexivity|]. now destruct (find_entry n es).
  - destruct t as [x|m es]; [reflexivity|].
    destruct (find_entry c es) as [t'|]; [apply IH | reflexivity].
Qed.

Lemma find_entry_In n es t : find_entry n es = Some t -> In n (map fst es).
Proof.
  induction es as [|[k x] es IH]; simpl; [discriminate|].
  destruct (String.eqb_spec k n) as [->|_]; [now left | intros H; right; auto].
Qed.


Lemma length_app (a b : string) :
  String.length (a ++ b) = String.length a + String.length b.
Proof. induction a as [|c a IH]; simpl; [reflexivity | now rewrite IH]. Qed.

Lemma join_snoc sep l n :
  Str.join sep (l ++ [n])
  = match l with
    | [] => n
    | _ :: _ => (Str.join sep l ++ sep ++ n)%string
    end.
Proof.
  induction l as [|x l IH]; [reflexivity|].
  destruct l as [|y l]; [reflexivity|].
  change (Str.join sep ((x :: y :: l) ++ [n]))
    with (x ++ sep ++ Str.join sep ((y :: l) ++ [n]))%string.
  rewrite IH. simpl. now rewrite !append_assoc.
Qed.

Lemma str_cons rt x l :
  str (mkPath rt (x :: l)) = (rt ++ Str.join "/" (x :: l))%string.
Proof. unfold str. cbn [root parts]. now destruct rt. Qed.

(** The text of a child is the text of its directory and the name, with a
    slash between them where one is needed. *)
Lemma str_child_length p n :
  n <> "" ->
  String.length (str p) <= String.length (str (make_child_relpath p n))
  /\ String.length (str (make_child_relpath p n))
     <= String.length (str p) + String.length n + 1.
Proof.
  intros Hn.
  assert (Hl : 1 <= String.length n) by (destruct n; simpl; [congruence | lia]).
  destruct p as [rt ps]. unfold make_child_relpath. cbn [root parts].
  destruct ps as [|x l].
  - change ([] ++ [n]) with [n]. rewrite str_cons.
    change (Str.join "/" [n]) with n. rewrite length_app.
    destruct rt; cbn; rewrite ?length_app; cbn; lia.
  - change ((x :: l) ++ [n]) with (x :: (l ++ [n])). rewrite !str_cons.
    change (x :: (l ++ [n])) with ((x :: l) ++ [n]). rewrite join_snoc.
    rewrite !length_app. cbn [String.length]. lia.
Qed.

Lemma split_no_slash s : no_slash s = true -> Str.split "/" s = [s].
Proof.
  induction s as [|c s IH]; simpl; [reflexivity|].
  unfold no_slash. simpl. intros H. apply andb_true_iff in H.
  destruct H as [Hc Hs]. apply negb_true_iff in Hc. rewrite Hc.
  now rewrite (IH Hs).
Qed.

Lemma no_slash_md s : no_slash s = true -> no_slash (s ++ ".md") = true.
Proof.
  unfold no_slash. induction s as [|c s IH]; simpl; [reflexivity|].
  intros H. apply andb_true_iff in H. destruct H as [Hc Hs].
  now rewrite Hc, (IH Hs).
Qed.

(** For a slug without a slash, [path / f'{slug}.md'] is a child of
    [path]. *)
Lemma truediv_no_slash p s :
  no_slash s = true ->
  truediv p (s ++ ".md") = make_child_relpath p (s ++ ".md").
Proof.
  intros H. unfold truediv, make_child_relpath.
  assert (Hstart : Str.startswith "/" (s ++ ".md") = false).
  { destruct s as [|c s]; [reflexivity|]. unfold no_slash in H. simpl in H.
    apply andb_true_iff in H. destruct H as [Hc _].
    now apply negb_true_iff in Hc. }
  rewrite Hstart. unfold parse_parts.
  rewrite (split_no_slash _ (no_slash_md _ H)). f_equal. f_equal.
  destruct s as [|c [|d s]]; simpl; try reflexivity;
    now destruct (Ascii.eqb c ".").
Qed.

Lemma parent_make_child p n : parent (make_child_relpath p n) = p.
Proof.
  unfold parent, make_child_relpath. simpl. rewrite removelast_last.
  now destruct p.
Qed.

Lemma md_not_dotdot s : (s ++ ".md")%string <> "..".
Proof.
  intros H. apply (f_equal String.length) in H. rewrite length_md in H.
  simpl in H. lia.
Qed.


(** A child that is there, other than [".."], is an entry of a directory
    that is there and may be searched. *)
Lemma stat_child_inv fs p n x :
  stat fs (make_child_relpath p n) = Ok x ->
  n <> ".." -> n <> "" ->
  exists m es,
    stat fs p = Ok (Dir m es) /\ searchable m = true /\ find_entry n es = Some x.
Proof.
  intros H Hn Hne. destruct (str_child_length p n Hne) as [Hlen _].
  unfold stat in *.
  destruct (Nat.leb_spec (path_max fs)
              (String.length (str (make_child_relpath p n)))) as [_|Hc];
    [discriminate|].
  destruct (Nat.leb_spec (path_max fs) (String.length (str p))) as [Hp|_];
    [lia|].
  unfold make_child_relpath in H at 1 2. cbn [root parts] in H.
  rewrite walk_app in H.
  destruct (walk (tree fs) (name_max fs) _ (parts p)) as [loc|e];
    [|discriminate].
  cbn [walk] in H.
  destruct (lookup (tree fs) loc) as [[c|m es]|] eqn:L; try discriminate.
  destruct (searchable m) eqn:Hm; [|discriminate]. cbn [negb] in H.
  destruct (String.eqb_spec n "..") as [->|_]; [congruence|].
  destruct (name_max fs <? String.length n)%nat; [discriminate|].
  rewrite lookup_snoc, L in H.
  destruct (find_entry n es) as [y|] eqn:F; [|discriminate].
  injection H as <-. now exists m, es.
Qed.

Lemma path_exists_true fs p :
  path_exists fs p = Ok true -> exists x, stat fs p = Ok x.
Proof.
  unfold path_exists. destruct (stat fs p) as [x|e]; [now exists x|].
  destruct (ignore_error e); discriminate.
Qed.



(** X8.  The path the search returns exists on the file system it was run
    on.  When the slug has no slash in it, that path is a child of [path],
    named [index.md], [{slug}.md] or [.md]; [path] is a directory that
    may be searched, the name is the name of one of its entries, and it is
    among the names the directory lists if the directory may be read. *)
Theorem description_path_names_an_entry fs r q :
  description_path_func fs r = Ok (Some q) ->
  path_exists fs q = Ok true
  /\ (no_slash (slug r) = true ->
      exists n m es,
        q = make_child_relpath (path r) n
        /\ parent q = path r
        /\ (n = "index.md" \/ n = (slug r ++ ".md")%string \/ n = ".md")
        /\ stat fs (path r) = Ok (Dir m es)
        /\ searchable m = true
        /\ In n (map fst es)
        /\ (readable m = true ->
            exists names, listdir fs (path r) = Ok names /\ In n names)).
Proof.
  assert (Hchild : forall n,
             n <> ".." -> n <> "" ->
             (n = "index.md" \/ n = (slug r ++ ".md")%string \/ n = ".md") ->
             path_exists fs (make_child_relpath (path r) n) = Ok true ->
             exists n' m es,
               make_child_relpath (path r) n = make_child_relpath (path r) n'
               /\ parent (make_child_relpath (path r) n) = path r
               /\ (n' = "index.md" \/ n' = (slug r ++ ".md")%string \/ n' = ".md")
               /\ stat fs (path r) = Ok (Dir m es)
               /\ searchable m = true
               /\ In n' (map fst es)
               /\ (readable m = true ->
                   exists names, listdir fs (path r) = Ok names /\ In n' names)).
  { intros n Hn Hne Hcase E.
    destruct (path_exists_true fs _ E) as [x Hx].
    destruct (stat_child_inv fs (path r) n x Hx Hn Hne) as (m & es & Hp & Hm & F).
    pose proof (find_entry_In n es x F) as Hin.
    exists n, m, es. split; [reflexivity|].
    split; [apply parent_make_child|]. split; [exact Hcase|].
    split; [exact Hp|]. split; [exact Hm|]. split; [exact Hin|].
    intros Hr. exists (map fst es). split; [|exact Hin].
    unfold listdir. now rewrite Hp, Hr. }
  assert (Hne : (slug r ++ ".md")%string <> "").
  { intros H. apply (f_equal String.length) in H. rewrite length_md in H.
    simpl in H. lia. }
  unfold description_path_func. rewrite truediv_index.
  destruct (path_exists fs (make_child_relpath (path r) "index.md"))
    as [[|]|e] eqn:E1; [| |discriminate].
  { intros [= <-]. split; [exact E1|]. intros _.
    apply Hchild; [discriminate | discriminate | now left | exact E1]. }
  destruct (path_exists fs (truediv (path r) (slug r ++ ".md")))
    as [[|]|e] eqn:E2; [| |discriminate].
  { intros [= <-]. split; [exact E2|]. intros Hs.
    rewrite (truediv_no_slash (path r) (slug r) Hs) in *.
    apply Hchild; [apply md_not_dotdot | exact Hne | right; now left | exact E2]. }
  destruct (glob fs (path r) ".md") as [[|x l]|e] eqn:G; try discriminate.
  simpl. intros [= <-].
  destruct (glob_literal fs (path r) ".md" (x :: l) x G) as [-> E3]; [now left|].
  split; [exact E3|]. intros _.
  apply Hchild; [discriminate | discriminate | right; now right | exact E3].
Qed.

(** A directory that may be searched but not listed: the search finds its
    [index.md], and listing it raises. *)
Example description_path_in_unlisted_directory :
  description_path_func Demo.site (Demo.Piece_ (Demo.pieces "vault") None)
  = Ok (Some (of_string "content/pieces/vault/index.md"))
  /\ listdir Demo.site (Demo.pieces "vault") = Raise PermissionError.
Proof. split; reflexivity. Qed.

(** X9.  The description file is never an asset: the path the search
    returns carries the suffix [.md] or none, so it is not in the list
    [assets] builds, on whatever file system; and it never carries the
    suffix [.html]. *)
Theorem description_file_is_no_asset fs fs' r q l :
  description_path_func fs r = Ok (Some q) ->
  assets_func fs' r = Ok l ->
  ~ In q l /\ is_asset q = false /\ suffix q <> ".html".
Proof.
  intros Hq Hl.
  pose proof (description_path_func_suffix fs r q Hq) as Hs.
  assert (Ha : is_asset q = false).
  { unfold is_asset. apply negb_false_iff, str_in_spec. simpl.
    destruct Hs as [-> | ->]; auto. }
  split; [|split; [exact Ha|]].
  - destruct (assets_func_inv fs' r l Hl) as (names & _ & ->).
    intros Hin. apply filter_In in Hin. destruct Hin as [_ Hin]. congruence.
  - destruct Hs as [-> | ->]; discriminate.
Qed.

Section OutcomeFacts.

Variable sluggify : string -> string.
Variable is_wide : FS -> Path -> bool.
Variable load_file : FS -> Path -> result Document.

Lemma generate_listing_raises fs w e :
  assets_cache (self w) = None ->
  assets_func fs (self w) = Raise e ->
  _generate_description sluggify is_wide fs w
  = match ET.fromstring (template (slug (self w))) with
    | Ok _ => (Raise e, w)
    | Raise e' => (Raise e', w)
    end.
Proof.
  intros Hc Hf. unfold _generate_description, template.
  cbv [bind get_self lift ret].
  destruct (ET.fromstring _) as [body|e']; [|reflexivity].
  now rewrite (assets_miss fs w Hc), Hf.
Qed.

(** X10.  What synthesis comes to on an instance that has not read
    [assets] yet: if the heading does not parse it raises that error; else
    if the directory cannot be listed it raises that error; in both cases
    nothing is stored.  Otherwise it returns a document titled by the slug
    and the list of assets is stored.  No other error comes out of it. *)
Theorem synthesis_outcome fs w :
  assets_cache (self w) = None ->
  match ET.fromstring (template (slug (self w))), listdir fs (path (self w)) with
  | Raise e, _ => _generate_description sluggify is_wide fs w = (Raise e, w)
  | Ok _, Raise e => _generate_description sluggify is_wide fs w = (Raise e, w)
  | Ok _, Ok names =>
      exists d,
        _generate_description sluggify is_wide fs w
        = (Ok d,
           mkWorld (store_assets
                      (filter is_asset (map (make_child_relpath (path (self w))) names))
                      (self w))
                   (records w))
        /\ title d = slug (self w)
  end.
Proof.
  intros Hc.
  destruct (listdir fs (path (self w))) as [names|e] eqn:Hl.
  - pose proof (assets_func_listing fs (self w) names Hl) as Hf.
    destruct (filter is_asset _) as [|first rest] eqn:E.
    + rewrite (generate_without_assets sluggify is_wide fs w Hc Hf).
      destruct (ET.fromstring _); [now eexists | reflexivity].
    + destruct (generate_with_assets sluggify is_wide fs w first rest Hc Hf)
        as [_ ->].
      destruct (ET.fromstring _); [now eexists | reflexivity].
  - assert (Hf : assets_func fs (self w) = Raise e)
      by (unfold assets_func, iterdir; now rewrite Hl).
    rewrite (generate_listing_raises fs w e Hc Hf).
    now destruct (ET.fromstring _).
Qed.

(** X11.  In a synthesized document the primary image, when there is one,
    has as [src] the bare name of an entry of the directory, one that counts
    as an asset, whatever the directory's own path is; there is none only
    when no entry of the directory counts as an asset. *)
Theorem headline_src_is_an_entry_name fs w names d w1 :
  assets_cache (self w) = None ->
  listdir fs (path (self w)) = Ok names ->
  _generate_description sluggify is_wide fs w = (Ok d, w1) ->
  match primary_image d with
  | None =>
      forall n, In n names ->
                is_asset (make_child_relpath (path (self w)) n) = false
  | Some img =>
      exists n,
        In n names
        /\ is_asset (make_child_relpath (path (self w)) n) = true
        /\ img = make_headline_image
                   n (stem (make_child_relpath (path (self w)) n))
                   (is_wide fs (make_child_relpath (path (self w)) n))
        /\ ET.get img "src" = Some n
  end.
Proof.
  intros Hc Hl Hg.
  pose proof (assets_func_listing fs (self w) names Hl) as Hf.
  destruct (filter is_asset _) as [|first rest] eqn:E.
  - rewrite (generate_without_assets sluggify is_wide fs w Hc Hf) in Hg.
    destruct (ET.fromstring _); [|discriminate]. injection Hg as <- _. simpl.
    intros n Hn.
    destruct (is_asset (make_child_relpath (path (self w)) n)) eqn:A;
      [|reflexivity].
    assert (Hin : In (make_child_relpath (path (self w)) n) []).
    { rewrite <- E. apply filter_In. split; [now apply in_map | exact A]. }
    destruct Hin.
  - destruct (generate_with_assets sluggify is_wide fs w first rest Hc Hf)
      as [_ Hgen].
    rewrite Hgen in Hg. destruct (ET.fromstring _); [|discriminate].
    injection Hg as <- _. simpl.
    set (sel := selected sluggify (slug (self w)) first rest).
    assert (Hin : In sel (first :: rest))
      by (apply next_filter_In; now left).
    rewrite <- E in Hin. apply filter_In in Hin. destruct Hin as [Hin Ha].
    apply in_map_iff in Hin. destruct Hin as (n & Hn & Hin).
    assert (Hname : name sel = n) by (rewrite <- Hn; apply name_make_child).
    exists n. split; [exact Hin|]. rewrite Hn. split; [exact Ha|].
    unfold headline_of. rewrite Hname.
    split; [reflexivity|]. now destruct (is_wide fs sel).
Qed.

(** X12.  [from_path] given a [.md] or [.html] file of a directory makes
    the resource it makes given the directory itself, except that the file
    is stored in [_description_path]; the two resources have the same
    [description], result or error, and log the same. *)
Theorem from_path_of_file_or_directory k p n fs lg :
  suffix p <> ".md" -> suffix p <> ".html" ->
  let f := make_child_relpath p n in
  suffix f = ".md" \/ suffix f = ".html" ->
  from_path sluggify k f = with_explicit (PyPath f) (from_path sluggify k p)
  /\ path (from_path sluggify k f) = p
  /\ slug (from_path sluggify k f) = slug (from_path sluggify k p)
  /\ fst (description sluggify is_wide load_file fs
                      (mkWorld (from_path sluggify k f) lg))
     = fst (description sluggify is_wide load_file fs
                        (mkWorld (from_path sluggify k p) lg))
  /\ records (snd (description sluggify is_wide load_file fs
                               (mkWorld (from_path sluggify k f) lg)))
     = records (snd (description sluggify is_wide load_file fs
                                 (mkWorld (from_path sluggify k p) lg))).
Proof.
  intros H1 H2 f Hf.
  assert (Ef : str_in (suffix f) [".md"; ".html"] = true).
  { apply str_in_spec. simpl. destruct Hf as [-> | ->]; auto. }
  assert (Ep : str_in (suffix p) [".md"; ".html"] = false).
  { apply str_in_false. simpl. intros [H|[H|[]]]; congruence. }
  assert (E : from_path sluggify k f
              = with_explicit (PyPath f) (from_path sluggify k p)).
  { unfold from_path. rewrite Ef, Ep. unfold f.
    rewrite parent_make_child. reflexivity. }
  split; [exact E|]. rewrite E.
  split; [unfold from_path; rewrite Ep; apply Resource_init_path|].
  split; [reflexivity|].
  change (mkWorld (with_explicit (PyPath f) (from_path sluggify k p)) lg)
    with (set_explicit (PyPath f) (mkWorld (from_path sluggify k p) lg)).
  rewrite (ignores_description sluggify is_wide load_file fs).
  now split.
Qed.

End OutcomeFacts.

(* ===================================================================== *)
(** ** The further statements on the example site *)
(* ===================================================================== *)

Lemma headline_arguments_read_back :
  ET.get (make_headline_image "cover.jpg" "cover" true) "class" = Some "wide"
  /\ forall src alt wide,
       make_headline_image src alt wide
       = make_headline_image "cover.jpg" "cover" true ->
       src = "cover.jpg" /\ alt = "cover" /\ wide = true.
Proof.
  destruct (make_headline_image_round_trip "cover.jpg" "cover" true)
    as (_ & _ & _ & _ & _ & _ & Hwide & _ & Hback).
  split; [exact (proj2 Hwide eq_refl) | exact Hback].
Defined.

(** [owl] is loaded once; [empty] with a slug that does not parse raises,
    stores no document, but has stored that no description file was
    found. *)
Lemma description_of_owl_is_stored_and_a_failure_is_not :
  let D := description Demo.sluggify Demo.is_wide Demo.load_file in
  let owl := Demo.start (Demo.Piece_ (Demo.pieces "owl") None) in
  let bad := Demo.start (Demo.Piece_ (Demo.pieces "empty") (Some "i<3owls")) in
  (D Demo.bare (snd (D Demo.site owl))
   = (Ok (mkDocument "# Owl" (ET.Element_new "html") None), snd (D Demo.site owl)))
  /\ (fst (D Demo.site bad) = Raise ParseError
      /\ description_cache (self (snd (D Demo.site bad))) = None
      /\ exists dp,
          description_path_cache (self (snd (D Demo.site bad))) = Some dp
          /\ description_path Demo.bare (snd (D Demo.site bad))
             = (Ok dp, snd (D Demo.site bad))).
Proof.
  intros D owl bad. split.
  - destruct (description_stored_on_success_only
                Demo.sluggify Demo.is_wide Demo.load_file Demo.site owl)
      as [Hok _].
    exact (proj2 (Hok (mkDocument "# Owl" (ET.Element_new "html") None)
                      (snd (D Demo.site owl)) eq_refl)
                 Demo.bare).
  - destruct (description_stored_on_success_only
                Demo.sluggify Demo.is_wide Demo.load_file Demo.site bad)
      as [_ Hraise].
    destruct (Hraise ParseError (snd (D Demo.site bad)) eq_refl)
      as (Hnone & [[Hsearch _] | (dp & _ & Hdp & Hstable)]).
    + discriminate Hsearch.
    + split; [reflexivity|]. split; [exact Hnone|].
      exists dp. split; [exact Hdp | exact (Hstable Demo.bare)].
Defined.

(** [lark]: the search returns [lark.md], and a read on a file system
    without anything in it returns it again.  [empty] with a slug of 253
    letters: the search raises and the instance is as before. *)
Lemma description_path_of_lark_is_stable :
  let w := Demo.start (Demo.Piece_ (Demo.pieces "lark") None) in
  let q := of_string "content/pieces/lark/lark.md" in
  let w1 := mkWorld (store_description_path (Some q) (self w)) [] in
  let long := Demo.start (Demo.Piece_ (Demo.pieces "empty") (Some Demo.long_slug)) in
  (description_path_func Demo.site (self w) = Ok (Some q)
   /\ description_path Demo.bare w1 = (Ok (Some q), w1))
  /\ description_path_cache (self long) = None.
Proof.
  intros w q w1 long.
  destruct (description_path_stored_when_returned Demo.site w)
    as (_ & Hreturned & _).
  destruct (Hreturned (Some q) w1 eq_refl) as (_ & Hfunc & Hstable).
  split; [split; [exact (Hfunc eq_refl) | exact (Hstable Demo.bare)]|].
  destruct (description_path_stored_when_returned Demo.site long)
    as (_ & _ & Hraised).
  assert (E : description_path Demo.site long
              = (Raise (OSError "ENAMETOOLONG"), long))
    by (vm_compute; reflexivity).
  exact (proj1 (proj2 (Hraised _ _ E))).
Defined.

Lemma description_of_owl_does_not_list :
  let w := Demo.start (Demo.Piece_ (Demo.pieces "owl") None) in
  assets_cache
    (self (snd (description Demo.sluggify Demo.is_wide Demo.load_file Demo.site w)))
  = None.
Proof.
  intros w.
  exact (proj2 (loaded_description_leaves_assets_unread
                  Demo.sluggify Demo.is_wide Demo.load_file Demo.site w
                  (of_string "content/pieces/owl/index.md")
                  (snd (description_path Demo.site w)) eq_refl eq_refl)).
Defined.


Lemma description_path_of_lark_is_listed :
  let r := Demo.Piece_ (Demo.pieces "lark") None in
  let q := of_string "content/pieces/lark/lark.md" in
  path_exists Demo.site q = Ok true
  /\ exists n,
      q = make_child_relpath (path r) n /\ In n ["lark.md"; "lark.jpg"].
Proof.
  intros r q.
  destruct (description_path_names_an_entry Demo.site r q eq_refl)
    as [Hex Hchild].
  split; [exact Hex|].
  destruct (Hchild eq_refl) as (n & m & es & Hq & _ & _ & Hp & _ & _ & Hl).
  injection Hp as <- _.
  destruct (Hl eq_refl) as (names & Hnames & Hin).
  injection Hnames as <-.
  exists n. split; [exact Hq | exact Hin].
Defined.

Lemma index_of_owl_is_no_asset :
  let r := Demo.Piece_ (Demo.pieces "owl") None in
  ~ In (of_string "content/pieces/owl/index.md")
       [of_string "content/pieces/owl/owl.jpg"].
Proof.
  intros r.
  exact (proj1 (description_file_is_no_asset
                  Demo.site Demo.site r
                  (of_string "content/pieces/owl/index.md")
                  [of_string "content/pieces/owl/owl.jpg"] eq_refl eq_refl)).
Defined.

Lemma synthesis_outcome_of_bad_slug :
  let w := Demo.start (Demo.Piece_ (Demo.pieces "empty") (Some "i<3owls")) in
  _generate_description Demo.sluggify Demo.is_wide Demo.site w
  = (Raise ParseError, w).
Proof.
  intros w.
  exact (synthesis_outcome Demo.sluggify Demo.is_wide Demo.site w eq_refl).
Defined.

Lemma headline_src_of_wren :
  let w := Demo.start (Demo.Piece_ (Demo.pieces "wren") None) in
  let img := make_headline_image "a.jpg" "a" true in
  let d := mkDocument "wren" (with_headline (heading_tree "wren") img) (Some img) in
  fst (_generate_description Demo.sluggify Demo.is_wide Demo.site w) = Ok d
  /\ exists n, In n ["a.jpg"; "b.png"] /\ ET.get img "src" = Some n.
Proof.
  intros w img d. split; [reflexivity|].
  destruct (headline_src_is_an_entry_name
              Demo.sluggify Demo.is_wide Demo.site w ["a.jpg"; "b.png"] d
              (mkWorld (store_assets [of_string "content/pieces/wren/a.jpg";
                                      of_string "content/pieces/wren/b.png"]
                                     (self w)) [])
              eq_refl eq_refl eq_refl)
    as (n & Hin & _ & Himg & _).
  exists n. split; [exact Hin|]. cbv zeta in Himg. rewrite Himg.
  now destruct (Demo.is_wide _ _).
Defined.

Lemma from_path_of_owl_html_or_owl :
  let p := Demo.pieces "owl" in
  let f := of_string "content/pieces/owl/owl.html" in
  fst (description Demo.sluggify Demo.is_wide Demo.load_file Demo.site
                   (Demo.start (from_path Demo.sluggify Piece f)))
  = fst (description Demo.sluggify Demo.is_wide Demo.load_file Demo.site
                     (Demo.start (from_path Demo.sluggify Piece p))).
Proof.
  intros p f.
  destruct (from_path_of_file_or_directory
              Demo.sluggify Demo.is_wide Demo.load_file Piece p "owl.html"
              Demo.site [])
    as (_ & _ & _ & Hd & _); [discriminate | discriminate | now right |].
  exact Hd.
Defined.
